(** * AI Character Chat: the server actions over the three tables

    A shallow embedding of [src/actions/index.ts] and [db/tables.ts].

    - A request body is an untyped JavaScript object; every action first
      runs its zod schema over it and only then its handler.
    - The handlers are asynchronous code over the database: they are
      written in a small monad that threads the three tables and an
      access trail (every select, insert and update leaves an entry) and
      that can throw.
    - [new Date()] and [crypto.randomUUID()] are inputs of a call. *)

From Stdlib Require Import String List Bool ZArith Lia.
Import ListNotations.
Local Open Scope string_scope.
Local Open Scope list_scope.

(** ** JavaScript values, as far as the schemas look at them *)

#[local] Unset Elimination Schemes.
Inductive JsValue : Type :=
| JUndefined
| JNull
| JBool (b : bool)
| JNumber (n : Z)
| JString (s : string)
| JArray (items : list JsValue)
| JObject (props : list (string * JsValue)).
#[local] Set Elimination Schemes.

Definition JsObject : Type := list (string * JsValue).

(** [o[k]]: a key that is not there reads as [undefined]. *)
Fixpoint prop (k : string) (o : JsObject) : JsValue :=
  match o with
  | [] => JUndefined
  | (k', v) :: o' => if String.eqb k k' then v else prop k o'
  end.

(** ** Rows of the three tables ([db/tables.ts])

    [column.text({ optional: true })] is a nullable column: [option].
    Dates are epoch milliseconds. *)

Module Character.
Record t : Type := mk {
  id : string;
  userId : option string;
  name : string;
  slug : option string;
  shortDescription : option string;
  fullDescription : option string;
  systemPrompt : option string;
  speakingStyle : option string;
  domain : option string;
  avatarUrl : option string;
  isSystem : bool;
  isPublic : bool;
  createdAt : Z;
  updatedAt : Z
}.

(** [Partial<typeof AiCharacters.$inferInsert>]: every column may be
    left out ([None]); a nullable column that is given may be given
    [null] ([Some None]). *)
Record partial : Type := mkPartial {
  set_id : option string;
  set_userId : option (option string);
  set_name : option string;
  set_slug : option (option string);
  set_shortDescription : option (option string);
  set_fullDescription : option (option string);
  set_systemPrompt : option (option string);
  set_speakingStyle : option (option string);
  set_domain : option (option string);
  set_avatarUrl : option (option string);
  set_isSystem : option bool;
  set_isPublic : option bool;
  set_createdAt : option Z;
  set_updatedAt : option Z
}.
End Character.

Module Session.
Record t : Type := mk {
  id : string;
  characterId : string;
  userId : string;
  title : option string;
  contextSummary : option string;
  isPinned : bool;
  isArchived : bool;
  createdAt : Z;
  updatedAt : Z;
  lastMessageAt : option Z
}.

(** [Partial<typeof CharacterChatSessions.$inferInsert>]. *)
Record partial : Type := mkPartial {
  set_id : option string;
  set_characterId : option string;
  set_userId : option string;
  set_title : option (option string);
  set_contextSummary : option (option string);
  set_isPinned : option bool;
  set_isArchived : option bool;
  set_createdAt : option Z;
  set_updatedAt : option Z;
  set_lastMessageAt : option (option Z)
}.
End Session.

(** The closed set of [z.enum(["user", "character", "system"])]. *)
Inductive SenderRole : Type := RoleUser | RoleCharacter | RoleSystem.

Definition role_text (r : SenderRole) : string :=
  match r with
  | RoleUser => "user"
  | RoleCharacter => "character"
  | RoleSystem => "system"
  end.

Module Message.
Record t : Type := mk {
  id : string;
  sessionId : string;
  userId : option string;
  senderRole : string;
  content : string;
  metadataJson : option string;
  createdAt : Z
}.
End Message.

(** ** What a call can throw, and what it can return *)

Inductive ActionErrorCode : Type :=
| BAD_REQUEST | UNAUTHORIZED | FORBIDDEN | NOT_FOUND | INTERNAL_SERVER_ERROR.

Inductive Table : Type :=
| T_AiCharacters | T_CharacterChatSessions | T_CharacterChatMessages.

(** [ActionError] is what the handlers throw themselves;
    [ActionInputError] is what [defineAction] throws when the schema
    rejects the body (its issues are kept as the list of offending keys);
    [ConstraintError] is the store refusing a second row with the same
    primary key. *)
Inductive Thrown : Type :=
| ActionError (code : ActionErrorCode) (message : string)
| ActionInputError (issues : list string)
| ConstraintError (table : Table).

Definition code_of (e : Thrown) : ActionErrorCode :=
  match e with
  | ActionError c _ => c
  | ActionInputError _ => BAD_REQUEST
  | ConstraintError _ => INTERNAL_SERVER_ERROR
  end.

(** The [data] of [{ success: true, data }]. *)
Inductive Data : Type :=
| DataCharacter (character : Character.t)
| DataSession (session : Session.t)
| DataMessage (message : Message.t)
| DataId (id : string)
| DataCharacters (items : list Character.t) (total : nat)
| DataSessions (items : list Session.t) (total : nat)
| DataMessages (items : list Message.t) (total : nat).

Inductive Outcome (A : Type) : Type :=
| Returned (a : A)
| Threw (e : Thrown).
Arguments Returned {A} a.
Arguments Threw {A} e.

(** ** The database and the monad of the handlers *)

Inductive Access : Type :=
| Select (t : Table)
| Insert (t : Table)
| Update (t : Table).

Record Db : Type := mkDb {
  AiCharacters : list Character.t;
  CharacterChatSessions : list Session.t;
  CharacterChatMessages : list Message.t;
  trail : list Access
}.

Definition Async (A : Type) : Type := Db -> Outcome A * Db.

Definition ret {A} (a : A) : Async A := fun d => (Returned a, d).

Definition throw {A} (e : Thrown) : Async A := fun d => (Threw e, d).

Definition bind {A B} (m : Async A) (k : A -> Async B) : Async B :=
  fun d =>
    match m d with
    | (Returned a, d') => k a d'
    | (Threw e, d') => (Threw e, d')
    end.

Notation "x <- m ;; k" := (bind m (fun x => k))
  (at level 61, m at next level, right associativity).
Notation "m ;; k" := (bind m (fun _ => k))
  (at level 61, right associativity).

Definition touch (a : Access) (d : Db) : Db :=
  mkDb (AiCharacters d) (CharacterChatSessions d) (CharacterChatMessages d)
       (trail d ++ [a]).

(** Two states hold the same rows (the trail apart). *)
Definition same_tables (d d' : Db) : Prop :=
  AiCharacters d' = AiCharacters d /\
  CharacterChatSessions d' = CharacterChatSessions d /\
  CharacterChatMessages d' = CharacterChatMessages d.

(** *** Conditions of a where-clause: [eq], [and], [or] *)

Definition Where (R : Type) : Type := R -> bool.

Definition and_ {R} (p q : Where R) : Where R := fun r => p r && q r.
Definition or_ {R} (p q : Where R) : Where R := fun r => p r || q r.

(** [eq] on a text column, and on a nullable one ([NULL = v] is not
    true). *)
Definition eq_text {R} (col : R -> string) (v : string) : Where R :=
  fun r => String.eqb (col r) v.

Definition eq_text_null {R} (col : R -> option string) (v : string) : Where R :=
  fun r => match col r with Some s => String.eqb s v | None => false end.

Definition eq_bool {R} (col : R -> bool) (v : bool) : Where R :=
  fun r => Bool.eqb (col r) v.

(** *** [.set(partial)] on one row *)

Definition or_keep {A} (given : option A) (old : A) : A :=
  match given with Some v => v | None => old end.

Definition set_character (u : Character.partial) (r : Character.t) : Character.t :=
  Character.mk
    (or_keep (Character.set_id u) (Character.id r))
    (or_keep (Character.set_userId u) (Character.userId r))
    (or_keep (Character.set_name u) (Character.name r))
    (or_keep (Character.set_slug u) (Character.slug r))
    (or_keep (Character.set_shortDescription u) (Character.shortDescription r))
    (or_keep (Character.set_fullDescription u) (Character.fullDescription r))
    (or_keep (Character.set_systemPrompt u) (Character.systemPrompt r))
    (or_keep (Character.set_speakingStyle u) (Character.speakingStyle r))
    (or_keep (Character.set_domain u) (Character.domain r))
    (or_keep (Character.set_avatarUrl u) (Character.avatarUrl r))
    (or_keep (Character.set_isSystem u) (Character.isSystem r))
    (or_keep (Character.set_isPublic u) (Character.isPublic r))
    (or_keep (Character.set_createdAt u) (Character.createdAt r))
    (or_keep (Character.set_updatedAt u) (Character.updatedAt r)).

Definition set_session (u : Session.partial) (r : Session.t) : Session.t :=
  Session.mk
    (or_keep (Session.set_id u) (Session.id r))
    (or_keep (Session.set_characterId u) (Session.characterId r))
    (or_keep (Session.set_userId u) (Session.userId r))
    (or_keep (Session.set_title u) (Session.title r))
    (or_keep (Session.set_contextSummary u) (Session.contextSummary r))
    (or_keep (Session.set_isPinned u) (Session.isPinned r))
    (or_keep (Session.set_isArchived u) (Session.isArchived r))
    (or_keep (Session.set_createdAt u) (Session.createdAt r))
    (or_keep (Session.set_updatedAt u) (Session.updatedAt r))
    (or_keep (Session.set_lastMessageAt u) (Session.lastMessageAt r)).

(** *** [db.select().from(T).where(w)] *)

Definition select_AiCharacters (w : Where Character.t) : Async (list Character.t) :=
  fun d => (Returned (filter w (AiCharacters d)), touch (Select T_AiCharacters) d).

Definition select_CharacterChatSessions (w : Where Session.t) : Async (list Session.t) :=
  fun d => (Returned (filter w (CharacterChatSessions d)),
            touch (Select T_CharacterChatSessions) d).

Definition select_CharacterChatMessages (w : Where Message.t) : Async (list Message.t) :=
  fun d => (Returned (filter w (CharacterChatMessages d)),
            touch (Select T_CharacterChatMessages) d).

(** *** [db.insert(T).values(row)]

    [id] is the primary key of each table: a row whose id is already
    stored is refused and the table stays as it was. The [references]
    of [characterId] and [sessionId] never refuse a row here: a handler
    inserts a session or a message only after it has selected the row
    referred to. *)

Definition insert_AiCharacters (row : Character.t) : Async unit :=
  fun d =>
    if existsb (eq_text Character.id (Character.id row)) (AiCharacters d)
    then (Threw (ConstraintError T_AiCharacters), touch (Insert T_AiCharacters) d)
    else (Returned tt,
          mkDb (AiCharacters d ++ [row]) (CharacterChatSessions d)
               (CharacterChatMessages d) (trail d ++ [Insert T_AiCharacters])).

Definition insert_CharacterChatSessions (row : Session.t) : Async unit :=
  fun d =>
    if existsb (eq_text Session.id (Session.id row)) (CharacterChatSessions d)
    then (Threw (ConstraintError T_CharacterChatSessions),
          touch (Insert T_CharacterChatSessions) d)
    else (Returned tt,
          mkDb (AiCharacters d) (CharacterChatSessions d ++ [row])
               (CharacterChatMessages d)
               (trail d ++ [Insert T_CharacterChatSessions])).

Definition insert_CharacterChatMessages (row : Message.t) : Async unit :=
  fun d =>
    if existsb (eq_text Message.id (Message.id row)) (CharacterChatMessages d)
    then (Threw (ConstraintError T_CharacterChatMessages),
          touch (Insert T_CharacterChatMessages) d)
    else (Returned tt,
          mkDb (AiCharacters d) (CharacterChatSessions d)
               (CharacterChatMessages d ++ [row])
               (trail d ++ [Insert T_CharacterChatMessages])).

(** *** [db.update(T).set(u).where(w)]: every row that matches *)

Definition update_AiCharacters (u : Character.partial) (w : Where Character.t)
  : Async unit :=
  fun d =>
    (Returned tt,
     mkDb (map (fun r => if w r then set_character u r else r) (AiCharacters d))
          (CharacterChatSessions d) (CharacterChatMessages d)
          (trail d ++ [Update T_AiCharacters])).

Definition update_CharacterChatSessions (u : Session.partial) (w : Where Session.t)
  : Async unit :=
  fun d =>
    (Returned tt,
     mkDb (AiCharacters d)
          (map (fun r => if w r then set_session u r else r) (CharacterChatSessions d))
          (CharacterChatMessages d)
          (trail d ++ [Update T_CharacterChatSessions])).

(** ** The caller: [context.locals?.user] *)

Module User.
Record t : Type := mk { id : string }.
End User.

Record Locals : Type := mkLocals { user : option User.t }.

Record ActionAPIContext : Type := mkContext { locals : option Locals }.

(** [locals?.user] *)
Definition locals_user (context : ActionAPIContext) : option User.t :=
  match locals context with
  | Some l => user l
  | None => None
  end.

(** What a call draws from its environment: the value of [new Date()]
    and of [crypto.randomUUID()] (no handler asks for either twice). *)
Record Runtime : Type := mkRuntime { now : Z; randomUUID : string }.

(** ** Validated inputs, one record per action (field order of the
    schemas) *)

Module CreateCharacter.
Record input : Type := mk {
  name : string;
  slug : option string;
  shortDescription : option string;
  fullDescription : option string;
  systemPrompt : option string;
  speakingStyle : option string;
  domain : option string;
  avatarUrl : option string;
  isPublic : option bool
}.
End CreateCharacter.

Module UpdateCharacter.
Record input : Type := mk {
  id : string;
  name : option string;
  slug : option string;
  shortDescription : option string;
  fullDescription : option string;
  systemPrompt : option string;
  speakingStyle : option string;
  domain : option string;
  avatarUrl : option string;
  isPublic : option bool
}.
End UpdateCharacter.

Module ListCharacters.
Record input : Type := mk { includePrivate : bool }.
End ListCharacters.

Module CreateChatSession.
Record input : Type := mk { characterId : string; title : option string }.
End CreateChatSession.

Module UpdateChatSession.
Record input : Type := mk {
  id : string;
  title : option string;
  contextSummary : option string;
  isPinned : option bool;
  isArchived : option bool
}.
End UpdateChatSession.

Module ListMyChatSessions.
Record input : Type := mk { includeArchived : bool }.
End ListMyChatSessions.

Module CreateChatMessage.
Record input : Type := mk {
  sessionId : string;
  senderRole : SenderRole;
  content : string;
  metadata : option JsObject
}.
End CreateChatMessage.

Module ListChatMessages.
Record input : Type := mk { sessionId : string }.
End ListChatMessages.

(** The keys of the exported [server] object. *)
Module Action.
Inductive name : Type :=
| createCharacter
| updateCharacter
| listCharacters
| createChatSession
| updateChatSession
| listMyChatSessions
| createChatMessage
| listChatMessages.
End Action.

(** ** zod, as far as the schemas use it *)

Definition Schema (A : Type) : Type := JsValue -> option A.

Definition z_string : Schema string :=
  fun v => match v with JString s => Some s | _ => None end.

Definition z_boolean : Schema bool :=
  fun v => match v with JBool b => Some b | _ => None end.

(** [.min(1)] *)
Definition min1 (p : Schema string) : Schema string :=
  fun v =>
    match p v with
    | Some s => if (1 <=? String.length s)%nat then Some s else None
    | None => None
    end.

(** [.optional()]: [undefined] passes, [null] does not *)
Definition optional {A} (p : Schema A) : Schema (option A) :=
  fun v =>
    match v with
    | JUndefined => Some None
    | _ => match p v with Some a => Some (Some a) | None => None end
    end.

(** [.default(d)] *)
Definition default {A} (p : Schema A) (d : A) : Schema A :=
  fun v => match v with JUndefined => Some d | _ => p v end.

(** [z.enum(["user", "character", "system"])] *)
Definition z_enum_senderRole : Schema SenderRole :=
  fun v =>
    match v with
    | JString s =>
        if String.eqb s "user" then Some RoleUser
        else if String.eqb s "character" then Some RoleCharacter
        else if String.eqb s "system" then Some RoleSystem
        else None
    | _ => None
    end.

(** [z.record(z.any())] *)
Definition z_record_any : Schema JsObject :=
  fun v => match v with JObject o => Some o | _ => None end.

(** [z.object({...})]: the keys are checked one by one, in the order of
    the schema; a key that fails is reported, the others are still
    checked. Keys the schema does not name are never read. *)
Definition ObjectSchema (A : Type) : Type := JsObject -> list string * option A.

Definition shape {A} (a : A) : ObjectSchema A := fun _ => ([], Some a).

Definition key {A} (k : string) (p : Schema A) : ObjectSchema A :=
  fun o =>
    match p (prop k o) with
    | Some a => ([], Some a)
    | None => ([k], None)
    end.

Definition ap {A B} (pf : ObjectSchema (A -> B)) (pa : ObjectSchema A)
  : ObjectSchema B :=
  fun o =>
    let (i1, f) := pf o in
    let (i2, a) := pa o in
    (i1 ++ i2,
     match f, a with
     | Some f, Some a => Some (f a)
     | _, _ => None
     end).

Notation "f <*> a" := (ap f a) (at level 50, left associativity).

(** [defineAction({ input, handler })]: the body is parsed first; the
    handler only ever sees a body the schema accepted. *)
Definition defineAction {I} (input : ObjectSchema I)
    (handler : I -> ActionAPIContext -> Async Data)
  : JsObject -> ActionAPIContext -> Async Data :=
  fun body context =>
    match input body with
    | (_, Some i) => handler i context
    | (issues, None) => throw (ActionInputError issues)
    end.

(** The body passes the schema and parses to [i]. *)
Definition accepts {I} (input : ObjectSchema I) (body : JsObject) (i : I) : Prop :=
  snd (input body) = Some i.

Definition requireUser (context : ActionAPIContext) : Async User.t :=
  match locals_user context with
  | None =>
      throw (ActionError UNAUTHORIZED "You must be signed in to perform this action.")
  | Some user => ret user
  end.

(** [a !== b] for a nullable text column [a] and a string [b], negated:
    [a === b]. *)
Definition strict_eq (a : option string) (b : string) : bool :=
  match a with Some s => String.eqb s b | None => false end.

(** [a ?? d] *)
Definition nullish {A} (a : option A) (d : A) : A :=
  match a with Some v => v | None => d end.

(** [if (x !== undefined) updateData.col = x] for a nullable column: the
    column is set to the string, or not mentioned. *)
Definition if_defined {A} (x : option A) : option (option A) :=
  match x with Some v => Some (Some v) | None => None end.

Section Server.

#[local] Set Default Proof Using "Type".

(** Two functions of the platform the actions call. *)
Variable JSON_stringify : JsObject -> string.
Variable is_url : string -> bool.

(** [.url()] *)
Definition url (p : Schema string) : Schema string :=
  fun v =>
    match p v with
    | Some s => if is_url s then Some s else None
    | None => None
    end.

(** *** createCharacter *)

Definition createCharacter_input : ObjectSchema CreateCharacter.input :=
  shape CreateCharacter.mk
  <*> key "name" (min1 z_string)
  <*> key "slug" (optional (min1 z_string))
  <*> key "shortDescription" (optional z_string)
  <*> key "fullDescription" (optional z_string)
  <*> key "systemPrompt" (optional z_string)
  <*> key "speakingStyle" (optional z_string)
  <*> key "domain" (optional z_string)
  <*> key "avatarUrl" (optional (url z_string))
  <*> key "isPublic" (optional z_boolean).

Definition createCharacter (rt : Runtime)
  : JsObject -> ActionAPIContext -> Async Data :=
  defineAction createCharacter_input (fun input context =>
    user <- requireUser context ;;
    let now := now rt in
    let character :=
      Character.mk
        (randomUUID rt)
        (Some (User.id user))
        (CreateCharacter.name input)
        (CreateCharacter.slug input)
        (CreateCharacter.shortDescription input)
        (CreateCharacter.fullDescription input)
        (CreateCharacter.systemPrompt input)
        (CreateCharacter.speakingStyle input)
        (CreateCharacter.domain input)
        (CreateCharacter.avatarUrl input)
        false
        (nullish (CreateCharacter.isPublic input) false)
        now
        now in
    insert_AiCharacters character ;;
    ret (DataCharacter character)).

(** *** updateCharacter *)

Definition updateCharacter_input : ObjectSchema UpdateCharacter.input :=
  shape UpdateCharacter.mk
  <*> key "id" (min1 z_string)
  <*> key "name" (optional (min1 z_string))
  <*> key "slug" (optional (min1 z_string))
  <*> key "shortDescription" (optional z_string)
  <*> key "fullDescription" (optional z_string)
  <*> key "systemPrompt" (optional z_string)
  <*> key "speakingStyle" (optional z_string)
  <*> key "domain" (optional z_string)
  <*> key "avatarUrl" (optional (url z_string))
  <*> key "isPublic" (optional z_boolean).

Definition updateCharacter_data (rt : Runtime) (input : UpdateCharacter.input)
  : Character.partial :=
  Character.mkPartial
    None
    None
    (UpdateCharacter.name input)
    (if_defined (UpdateCharacter.slug input))
    (if_defined (UpdateCharacter.shortDescription input))
    (if_defined (UpdateCharacter.fullDescription input))
    (if_defined (UpdateCharacter.systemPrompt input))
    (if_defined (UpdateCharacter.speakingStyle input))
    (if_defined (UpdateCharacter.domain input))
    (if_defined (UpdateCharacter.avatarUrl input))
    None
    (UpdateCharacter.isPublic input)
    None
    (Some (now rt)).

Definition updateCharacter (rt : Runtime)
  : JsObject -> ActionAPIContext -> Async Data :=
  defineAction updateCharacter_input (fun input context =>
    user <- requireUser context ;;
    existing <- select_AiCharacters
                  (eq_text Character.id (UpdateCharacter.id input)) ;;
    match existing with
    | [] =>
        throw (ActionError FORBIDDEN
                 "Character not found or you do not have access.")
    | character :: _ =>
        if negb (strict_eq (Character.userId character) (User.id user))
        then
          throw (ActionError FORBIDDEN
                   "Character not found or you do not have access.")
        else
          update_AiCharacters
                 (updateCharacter_data rt input)
                 (and_ (eq_text Character.id (UpdateCharacter.id input))
                       (eq_text_null Character.userId (User.id user))) ;;
          ret (DataId (UpdateCharacter.id input))
    end).

(** *** listCharacters *)

Definition listCharacters_input : ObjectSchema ListCharacters.input :=
  shape ListCharacters.mk
  <*> key "includePrivate" (default z_boolean false).

(** [locals?.user?.id ?? null] *)
Definition caller_id (context : ActionAPIContext) : option string :=
  match locals_user context with
  | Some u => Some (User.id u)
  | None => None
  end.

(** A string in a condition: the empty string counts as false. *)
Definition truthy (s : string) : bool := negb (String.eqb s "").

Definition baseVisibility : Where Character.t :=
  or_ (eq_bool Character.isPublic true) (eq_bool Character.isSystem true).

Definition listCharacters_where (input : ListCharacters.input)
    (userId : option string) : Where Character.t :=
  match userId with
  | Some uid =>
      if ListCharacters.includePrivate input && truthy uid
      then or_ baseVisibility (eq_text_null Character.userId uid)
      else baseVisibility
  | None => baseVisibility
  end.

Definition listCharacters
  : JsObject -> ActionAPIContext -> Async Data :=
  defineAction listCharacters_input (fun input context =>
    let userId := caller_id context in
    characters <- select_AiCharacters (listCharacters_where input userId) ;;
    ret (DataCharacters characters (length characters))).

(** *** createChatSession *)

Definition createChatSession_input : ObjectSchema CreateChatSession.input :=
  shape CreateChatSession.mk
  <*> key "characterId" (min1 z_string)
  <*> key "title" (optional z_string).

Definition createChatSession (rt : Runtime)
  : JsObject -> ActionAPIContext -> Async Data :=
  defineAction createChatSession_input (fun input context =>
    user <- requireUser context ;;
    found <- select_AiCharacters
               (eq_text Character.id (CreateChatSession.characterId input)) ;;
    match found with
    | [] => throw (ActionError NOT_FOUND "Character not found.")
    | character :: _ =>
        if negb (Character.isPublic character)
           && negb (Character.isSystem character)
           && negb (strict_eq (Character.userId character) (User.id user))
        then
          throw (ActionError FORBIDDEN
                   "You do not have access to this character.")
        else
          let now := now rt in
          let session :=
            Session.mk
              (randomUUID rt)
              (CreateChatSession.characterId input)
              (User.id user)
              (CreateChatSession.title input)
              None
              false
              false
              now
              now
              None in
          insert_CharacterChatSessions session ;;
          ret (DataSession session)
    end).

(** *** updateChatSession *)

Definition updateChatSession_input : ObjectSchema UpdateChatSession.input :=
  shape UpdateChatSession.mk
  <*> key "id" (min1 z_string)
  <*> key "title" (optional z_string)
  <*> key "contextSummary" (optional z_string)
  <*> key "isPinned" (optional z_boolean)
  <*> key "isArchived" (optional z_boolean).

Definition updateChatSession_data (rt : Runtime) (input : UpdateChatSession.input)
  : Session.partial :=
  Session.mkPartial
    None
    None
    None
    (if_defined (UpdateChatSession.title input))
    (if_defined (UpdateChatSession.contextSummary input))
    (UpdateChatSession.isPinned input)
    (UpdateChatSession.isArchived input)
    None
    (Some (now rt))
    None.

Definition updateChatSession (rt : Runtime)
  : JsObject -> ActionAPIContext -> Async Data :=
  defineAction updateChatSession_input (fun input context =>
    user <- requireUser context ;;
    found <- select_CharacterChatSessions
               (eq_text Session.id (UpdateChatSession.id input)) ;;
    match found with
    | [] =>
        throw (ActionError FORBIDDEN
                 "Session not found or you do not have access.")
    | session :: _ =>
        if negb (String.eqb (Session.userId session) (User.id user))
        then
          throw (ActionError FORBIDDEN
                   "Session not found or you do not have access.")
        else
          update_CharacterChatSessions
                 (updateChatSession_data rt input)
                 (and_ (eq_text Session.id (UpdateChatSession.id input))
                       (eq_text Session.userId (User.id user))) ;;
          ret (DataId (UpdateChatSession.id input))
    end).

(** *** listMyChatSessions *)

Definition listMyChatSessions_input : ObjectSchema ListMyChatSessions.input :=
  shape ListMyChatSessions.mk
  <*> key "includeArchived" (default z_boolean false).

Definition listMyChatSessions_where (input : ListMyChatSessions.input)
    (uid : string) : Where Session.t :=
  let whereClause := eq_text Session.userId uid in
  if negb (ListMyChatSessions.includeArchived input)
  then and_ whereClause (eq_bool Session.isArchived false)
  else whereClause.

Definition listMyChatSessions
  : JsObject -> ActionAPIContext -> Async Data :=
  defineAction listMyChatSessions_input (fun input context =>
    user <- requireUser context ;;
    sessions <- select_CharacterChatSessions
                  (listMyChatSessions_where input (User.id user)) ;;
    ret (DataSessions sessions (length sessions))).

(** *** createChatMessage *)

Definition createChatMessage_input : ObjectSchema CreateChatMessage.input :=
  shape CreateChatMessage.mk
  <*> key "sessionId" (min1 z_string)
  <*> key "senderRole" z_enum_senderRole
  <*> key "content" (min1 z_string)
  <*> key "metadata" (optional z_record_any).

Definition is_user (r : SenderRole) : bool :=
  match r with RoleUser => true | _ => false end.

(** [{ updatedAt: now, lastMessageAt: now }] *)
Definition touch_session_data (now : Z) : Session.partial :=
  Session.mkPartial None None None None None None None None
                    (Some now) (Some (Some now)).

Definition createChatMessage (rt : Runtime)
  : JsObject -> ActionAPIContext -> Async Data :=
  defineAction createChatMessage_input (fun input context =>
    user <- requireUser context ;;
    found <- select_CharacterChatSessions
               (eq_text Session.id (CreateChatMessage.sessionId input)) ;;
    match found with
    | [] =>
        throw (ActionError FORBIDDEN
                 "Session not found or you do not have access.")
    | session :: _ =>
        if negb (String.eqb (Session.userId session) (User.id user))
        then
          throw (ActionError FORBIDDEN
                   "Session not found or you do not have access.")
        else
          let now := now rt in
          let message :=
            Message.mk
              (randomUUID rt)
              (CreateChatMessage.sessionId input)
              (if is_user (CreateChatMessage.senderRole input)
               then Some (User.id user) else None)
              (role_text (CreateChatMessage.senderRole input))
              (CreateChatMessage.content input)
              (match CreateChatMessage.metadata input with
               | Some metadata => Some (JSON_stringify metadata)
               | None => None
               end)
              now in
          insert_CharacterChatMessages message ;;
          update_CharacterChatSessions
                 (touch_session_data now)
                 (and_ (eq_text Session.id (CreateChatMessage.sessionId input))
                       (eq_text Session.userId (User.id user))) ;;
          ret (DataMessage message)
    end).

(** *** listChatMessages *)

Definition listChatMessages_input : ObjectSchema ListChatMessages.input :=
  shape ListChatMessages.mk
  <*> key "sessionId" (min1 z_string).

Definition listChatMessages
  : JsObject -> ActionAPIContext -> Async Data :=
  defineAction listChatMessages_input (fun input context =>
    user <- requireUser context ;;
    found <- select_CharacterChatSessions
               (eq_text Session.id (ListChatMessages.sessionId input)) ;;
    match found with
    | [] =>
        throw (ActionError FORBIDDEN
                 "Session not found or you do not have access.")
    | session :: _ =>
        if negb (String.eqb (Session.userId session) (User.id user))
        then
          throw (ActionError FORBIDDEN
                   "Session not found or you do not have access.")
        else
          messages <- select_CharacterChatMessages
                        (eq_text Message.sessionId
                                 (ListChatMessages.sessionId input)) ;;
          ret (DataMessages messages (length messages))
    end).

(** *** The exported object *)

Definition server (a : Action.name) (rt : Runtime)
  : JsObject -> ActionAPIContext -> Async Data :=
  match a with
  | Action.createCharacter => createCharacter rt
  | Action.updateCharacter => updateCharacter rt
  | Action.listCharacters => listCharacters
  | Action.createChatSession => createChatSession rt
  | Action.updateChatSession => updateChatSession rt
  | Action.listMyChatSessions => listMyChatSessions
  | Action.createChatMessage => createChatMessage rt
  | Action.listChatMessages => listChatMessages
  end.


(** ** Properties *)

(** *** What the claims speak about *)


(** The rule the handler applies: the caller counts only when the
    identifier is a non-empty string. *)
Definition visible (includePrivate : bool) (context : ActionAPIContext)
    (c : Character.t) : Prop :=
  Character.isPublic c = true \/
  Character.isSystem c = true \/
  (includePrivate = true /\
   exists u, locals_user context = Some u /\
             User.id u <> "" /\
             Character.userId c = Some (User.id u)).

(** The id a call generates is not yet a primary key of the table. *)
Definition fresh_character_id (rt : Runtime) (d : Db) : Prop :=
  forall c, In c (AiCharacters d) -> Character.id c <> randomUUID rt.

Definition fresh_session_id (rt : Runtime) (d : Db) : Prop :=
  forall s, In s (CharacterChatSessions d) -> Session.id s <> randomUUID rt.


Definition is_some {A} (o : option A) : bool :=
  match o with Some _ => true | None => false end.

(** The body passes the schema of the action. *)
Definition schema_accepts (a : Action.name) (body : JsObject) : bool :=
  match a with
  | Action.createCharacter => is_some (snd (createCharacter_input body))
  | Action.updateCharacter => is_some (snd (updateCharacter_input body))
  | Action.listCharacters => is_some (snd (listCharacters_input body))
  | Action.createChatSession => is_some (snd (createChatSession_input body))
  | Action.updateChatSession => is_some (snd (updateChatSession_input body))
  | Action.listMyChatSessions => is_some (snd (listMyChatSessions_input body))
  | Action.createChatMessage => is_some (snd (createChatMessage_input body))
  | Action.listChatMessages => is_some (snd (listChatMessages_input body))
  end.

Definition signed_out : Thrown :=
  ActionError UNAUTHORIZED "You must be signed in to perform this action.".

Definition owner_scoped (a : Action.name) : bool :=
  match a with
  | Action.updateCharacter | Action.updateChatSession
  | Action.createChatMessage | Action.listChatMessages => true
  | _ => false
  end.

(** The key of the body that names the row the action works on. *)
Definition target_key (a : Action.name) : string :=
  match a with
  | Action.updateCharacter | Action.updateChatSession => "id"
  | _ => "sessionId"
  end.

(** The owners of the stored rows with that id, in table order: of
    characters for updateCharacter, of sessions for the others. *)
Definition target_owners (a : Action.name) (id : string) (d : Db)
  : list (option string) :=
  match a with
  | Action.updateCharacter =>
      map Character.userId (filter (eq_text Character.id id) (AiCharacters d))
  | _ =>
      map (fun s => Some (Session.userId s))
          (filter (eq_text Session.id id) (CharacterChatSessions d))
  end.

(** No row has the id. *)
Definition target_absent (a : Action.name) (id : string) (d : Db) : Prop :=
  target_owners a id d = [].

(** The row with the id belongs to someone else (or to nobody). *)
Definition target_foreign (a : Action.name) (id uid : string) (d : Db) : Prop :=
  exists o rest, target_owners a id d = o :: rest /\ o <> Some uid.

Definition denial (a : Action.name) : Thrown :=
  match a with
  | Action.updateCharacter =>
      ActionError FORBIDDEN "Character not found or you do not have access."
  | _ => ActionError FORBIDDEN "Session not found or you do not have access."
  end.

Definition target_table (a : Action.name) : Table :=
  match a with
  | Action.updateCharacter => T_AiCharacters
  | _ => T_CharacterChatSessions
  end.

(** The rows an update of [u] on [id] writes to. *)
Definition character_target (id uid : string) : Where Character.t :=
  and_ (eq_text Character.id id) (eq_text_null Character.userId uid).

Definition session_target (id uid : string) : Where Session.t :=
  and_ (eq_text Session.id id) (eq_text Session.userId uid).

(** A column after a partial update: the value given, or the old
    one. *)
Definition provided {A} (given : option A) (old new : A) : Prop :=
  match given with Some v => new = v | None => new = old end.

Definition provided_text (given : option string) (old new : option string)
  : Prop :=
  match given with Some v => new = Some v | None => new = old end.

(** Row [r'] is row [r] after updateCharacter applied [input] at time
    [now rt]. *)
Definition character_partially_updated (rt : Runtime)
    (input : UpdateCharacter.input) (r r' : Character.t) : Prop :=
  provided (UpdateCharacter.name input) (Character.name r) (Character.name r') /\
  provided_text (UpdateCharacter.slug input)
                (Character.slug r) (Character.slug r') /\
  provided_text (UpdateCharacter.shortDescription input)
                (Character.shortDescription r) (Character.shortDescription r') /\
  provided_text (UpdateCharacter.fullDescription input)
                (Character.fullDescription r) (Character.fullDescription r') /\
  provided_text (UpdateCharacter.systemPrompt input)
                (Character.systemPrompt r) (Character.systemPrompt r') /\
  provided_text (UpdateCharacter.speakingStyle input)
                (Character.speakingStyle r) (Character.speakingStyle r') /\
  provided_text (UpdateCharacter.domain input)
                (Character.domain r) (Character.domain r') /\
  provided_text (UpdateCharacter.avatarUrl input)
                (Character.avatarUrl r) (Character.avatarUrl r') /\
  provided (UpdateCharacter.isPublic input)
           (Character.isPublic r) (Character.isPublic r') /\
  Character.updatedAt r' = now rt /\
  Character.id r' = Character.id r /\
  Character.userId r' = Character.userId r /\
  Character.isSystem r' = Character.isSystem r /\
  Character.createdAt r' = Character.createdAt r.

(** Row [s'] is row [s] after updateChatSession applied [input]. *)
Definition session_partially_updated (rt : Runtime)
    (input : UpdateChatSession.input) (s s' : Session.t) : Prop :=
  provided_text (UpdateChatSession.title input)
                (Session.title s) (Session.title s') /\
  provided_text (UpdateChatSession.contextSummary input)
                (Session.contextSummary s) (Session.contextSummary s') /\
  provided (UpdateChatSession.isPinned input)
           (Session.isPinned s) (Session.isPinned s') /\
  provided (UpdateChatSession.isArchived input)
           (Session.isArchived s) (Session.isArchived s') /\
  Session.updatedAt s' = now rt /\
  Session.id s' = Session.id s /\
  Session.characterId s' = Session.characterId s /\
  Session.userId s' = Session.userId s /\
  Session.createdAt s' = Session.createdAt s /\
  Session.lastMessageAt s' = Session.lastMessageAt s.

(** The columns no update may write: identity, owner, system flag. *)
Definition character_protected (r r' : Character.t) : Prop :=
  Character.id r' = Character.id r /\
  Character.userId r' = Character.userId r /\
  Character.isSystem r' = Character.isSystem r.

Definition session_protected (s s' : Session.t) : Prop :=
  Session.id s' = Session.id s /\
  Session.userId s' = Session.userId s /\
  Session.characterId s' = Session.characterId s.

(** A call of one of the actions, and runs of calls one after the
    other on the database the one before left. *)
Record Call : Type := mkCall {
  call_action : Action.name;
  call_runtime : Runtime;
  call_body : JsObject;
  call_context : ActionAPIContext
}.

Definition run_call (c : Call) (d : Db) : Db :=
  snd (server (call_action c) (call_runtime c) (call_body c) (call_context c) d).

Definition run_calls (calls : list Call) (d : Db) : Db :=
  fold_left (fun d c => run_call c d) calls d.

Definition is_update (a : Action.name) : bool :=
  match a with
  | Action.updateCharacter | Action.updateChatSession => true
  | _ => false
  end.

(** The keys of the update schemas that stand for nullable columns. *)
Definition nullable_keys (a : Action.name) : list string :=
  match a with
  | Action.updateCharacter =>
      ["slug"; "shortDescription"; "fullDescription"; "systemPrompt";
       "speakingStyle"; "domain"; "avatarUrl"]
  | Action.updateChatSession => ["title"; "contextSummary"]
  | _ => []
  end.

Definition stays_set {A} (old new : option A) : Prop :=
  old <> None -> new <> None.

(** Every nullable text column that held a value in [r] holds one in
    [r']. *)
Definition character_keeps (r r' : Character.t) : Prop :=
  stays_set (Character.slug r) (Character.slug r') /\
  stays_set (Character.shortDescription r) (Character.shortDescription r') /\
  stays_set (Character.fullDescription r) (Character.fullDescription r') /\
  stays_set (Character.systemPrompt r) (Character.systemPrompt r') /\
  stays_set (Character.speakingStyle r) (Character.speakingStyle r') /\
  stays_set (Character.domain r) (Character.domain r') /\
  stays_set (Character.avatarUrl r) (Character.avatarUrl r').

Definition session_keeps (s s' : Session.t) : Prop :=
  stays_set (Session.title s) (Session.title s') /\
  stays_set (Session.contextSummary s) (Session.contextSummary s').

(** *** A small scenario

    Alice owns a public character and a private one, the platform owns a
    system character, and Bob has one archived and one open session
    with Alice's public character. *)

Definition alice : User.t := User.mk "u-alice".
Definition bob : User.t := User.mk "u-bob".

Definition as_user (u : User.t) : ActionAPIContext :=
  mkContext (Some (mkLocals (Some u))).

Definition anonymous : ActionAPIContext := mkContext (Some (mkLocals None)).

Definition mentor : Character.t :=
  Character.mk "c-mentor" (Some "u-alice") "Mentor" (Some "mentor") None None
               (Some "You are a patient mentor.") None None None false true 10 10.

Definition diary : Character.t :=
  Character.mk "c-diary" (Some "u-alice") "Diary" None None None
               None None None None false false 20 20.

Definition guide : Character.t :=
  Character.mk "c-guide" None "Guide" None None None
               None None None None true false 5 5.


Definition old_talk : Session.t :=
  Session.mk "s-old" "c-mentor" "u-bob" (Some "First talk") None false true
             40 45 (Some 45%Z).

Definition open_talk : Session.t :=
  Session.mk "s-open" "c-mentor" "u-bob" None (Some "so far") true false
             50 50 None.

Definition empty_db : Db := mkDb [] [] [] [].

Definition scenario : Db := mkDb [mentor; diary; guide] [old_talk; open_talk] [] [].

Definition at_time (t : Z) (uuid : string) : Runtime := mkRuntime t uuid.

(** Stand-ins for the two platform functions, for the runs below. *)
Definition plain_stringify (o : JsObject) : string :=
  match o with [] => "{}" | _ => "{...}" end.

Definition plain_is_url (s : string) : bool := String.prefix "http" s.

(** *** What a call may do to the tables

    [Effect who d (o, d')]: the ways in which a call by the caller with
    identifier [who] (if any) can have taken the tables of [d] to those
    of [d'] with outcome [o]. One constructor per write the handlers
    contain; [effect_read] stands for every call that wrote nothing. *)
Inductive Effect (who : option string) (d : Db) : Outcome Data * Db -> Prop :=
| effect_read o d' :
    same_tables d d' ->
    Effect who d (o, d')
| effect_new_character uid c d' :
    who = Some uid ->
    Character.userId c = Some uid ->
    Character.isSystem c = false ->
    (forall r, In r (AiCharacters d) -> Character.id r <> Character.id c) ->
    AiCharacters d' = AiCharacters d ++ [c] ->
    CharacterChatSessions d' = CharacterChatSessions d ->
    CharacterChatMessages d' = CharacterChatMessages d ->
    Effect who d (Returned (DataCharacter c), d')
| effect_update_characters uid rt input c d' :
    who = Some uid ->
    In c (AiCharacters d) ->
    Character.id c = UpdateCharacter.id input ->
    Character.userId c = Some uid ->
    AiCharacters d'
    = map (fun r => if character_target (UpdateCharacter.id input) uid r
                    then set_character (updateCharacter_data rt input) r
                    else r)
          (AiCharacters d) ->
    CharacterChatSessions d' = CharacterChatSessions d ->
    CharacterChatMessages d' = CharacterChatMessages d ->
    Effect who d (Returned (DataId (UpdateCharacter.id input)), d')
| effect_new_session uid c s d' :
    who = Some uid ->
    Session.userId s = uid ->
    In c (AiCharacters d) ->
    Character.id c = Session.characterId s ->
    (forall r, In r (CharacterChatSessions d) -> Session.id r <> Session.id s) ->
    AiCharacters d' = AiCharacters d ->
    CharacterChatSessions d' = CharacterChatSessions d ++ [s] ->
    CharacterChatMessages d' = CharacterChatMessages d ->
    Effect who d (Returned (DataSession s), d')
| effect_update_sessions uid rt input s d' :
    who = Some uid ->
    In s (CharacterChatSessions d) ->
    Session.id s = UpdateChatSession.id input ->
    Session.userId s = uid ->
    AiCharacters d' = AiCharacters d ->
    CharacterChatSessions d'
    = map (fun r => if session_target (UpdateChatSession.id input) uid r
                    then set_session (updateChatSession_data rt input) r
                    else r)
          (CharacterChatSessions d) ->
    CharacterChatMessages d' = CharacterChatMessages d ->
    Effect who d (Returned (DataId (UpdateChatSession.id input)), d')
| effect_new_message uid s m d' :
    who = Some uid ->
    In s (CharacterChatSessions d) ->
    Session.id s = Message.sessionId m ->
    Session.userId s = uid ->
    (forall r, In r (CharacterChatMessages d) -> Message.id r <> Message.id m) ->
    AiCharacters d' = AiCharacters d ->
    CharacterChatSessions d'
    = map (fun r => if session_target (Message.sessionId m) uid r
                    then set_session (touch_session_data (Message.createdAt m)) r
                    else r)
          (CharacterChatSessions d) ->
    CharacterChatMessages d' = CharacterChatMessages d ++ [m] ->
    Effect who d (Returned (DataMessage m), d').

(** *** Invariants of the tables *)

(** No two rows of a table share their primary key. *)
Definition unique_ids (d : Db) : Prop :=
  NoDup (map Character.id (AiCharacters d)) /\
  NoDup (map Session.id (CharacterChatSessions d)) /\
  NoDup (map Message.id (CharacterChatMessages d)).

(** Every session refers to a stored character and every message to a
    stored session. *)
Definition references_hold (d : Db) : Prop :=
  (forall s, In s (CharacterChatSessions d) ->
             exists c, In c (AiCharacters d) /\
                       Character.id c = Session.characterId s) /\
  (forall m, In m (CharacterChatMessages d) ->
             exists s, In s (CharacterChatSessions d) /\
                       Session.id s = Message.sessionId m).

(** The columns of a session that are fixed once it is stored. *)
Definition session_fixed (s s' : Session.t) : Prop :=
  Session.id s' = Session.id s /\
  Session.userId s' = Session.userId s /\
  Session.characterId s' = Session.characterId s /\
  Session.createdAt s' = Session.createdAt s.

(** The columns of a character that are fixed once it is stored. *)
Definition character_fixed (r r' : Character.t) : Prop :=
  Character.id r' = Character.id r /\
  Character.userId r' = Character.userId r /\
  Character.isSystem r' = Character.isSystem r /\
  Character.createdAt r' = Character.createdAt r.

(** The row is not the caller's: there is no caller, or the owner is
    someone else (or nobody). *)
Definition not_owned_by (who : option string) (owner : option string) : Prop :=
  forall uid, who = Some uid -> owner <> Some uid.

(** The actions that only read. *)
Definition is_listing (a : Action.name) : bool :=
  match a with
  | Action.listCharacters | Action.listMyChatSessions
  | Action.listChatMessages => true
  | _ => false
  end.

Definition is_select (x : Access) : bool :=
  match x with Select _ => true | _ => false end.

(** The actions that never look at the character table. *)
Definition is_chat_action (a : Action.name) : bool :=
  match a with
  | Action.updateChatSession | Action.listMyChatSessions
  | Action.createChatMessage | Action.listChatMessages => true
  | _ => false
  end.

(** The same database with another character table. *)
Definition with_characters (cs : list Character.t) (d : Db) : Db :=
  mkDb cs (CharacterChatSessions d) (CharacterChatMessages d) (trail d).

(** The keys the schema of an action names. *)
Definition schema_keys (a : Action.name) : list string :=
  match a with
  | Action.createCharacter =>
      ["name"; "slug"; "shortDescription"; "fullDescription"; "systemPrompt";
       "speakingStyle"; "domain"; "avatarUrl"; "isPublic"]
  | Action.updateCharacter =>
      ["id"; "name"; "slug"; "shortDescription"; "fullDescription";
       "systemPrompt"; "speakingStyle"; "domain"; "avatarUrl"; "isPublic"]
  | Action.listCharacters => ["includePrivate"]
  | Action.createChatSession => ["characterId"; "title"]
  | Action.updateChatSession =>
      ["id"; "title"; "contextSummary"; "isPinned"; "isArchived"]
  | Action.listMyChatSessions => ["includeArchived"]
  | Action.createChatMessage => ["sessionId"; "senderRole"; "content"; "metadata"]
  | Action.listChatMessages => ["sessionId"]
  end.

(** What a caller [who] can be shown of the character table: the rows
    that are public, system, or [who]'s own. *)
Definition may_see (who : option string) : Where Character.t :=
  fun r =>
    Character.isPublic r || Character.isSystem r
    || match who with
       | Some uid => strict_eq (Character.userId r) uid
       | None => false
       end.

(** Everything of a session but the two dates a new message moves. *)
Definition session_content_same (s s' : Session.t) : Prop :=
  Session.id s' = Session.id s /\
  Session.characterId s' = Session.characterId s /\
  Session.userId s' = Session.userId s /\
  Session.title s' = Session.title s /\
  Session.contextSummary s' = Session.contextSummary s /\
  Session.isPinned s' = Session.isPinned s /\
  Session.isArchived s' = Session.isArchived s /\
  Session.createdAt s' = Session.createdAt s.

(** *** What a body gives at a key

    Read off the body itself, not off the parsed input: the key is
    absent ([undefined]) or holds a value of the right kind. *)

(** An optional text key. *)
Definition gives_text (v : JsValue) (o : option string) : Prop :=
  match o with
  | Some s => v = JString s
  | None => v = JUndefined
  end.

(** An optional boolean key. *)
Definition gives_bool (v : JsValue) (o : option bool) : Prop :=
  match o with
  | Some b => v = JBool b
  | None => v = JUndefined
  end.

(** A boolean key that counts as false when it is absent. *)
Definition gives_flag (v : JsValue) (b : bool) : Prop :=
  v = JBool b \/ (v = JUndefined /\ b = false).

(** The body of an updateCharacter call names the row [id] and gives
    exactly the columns of [input]. *)
Definition body_of_character_update (body : JsObject)
    (input : UpdateCharacter.input) : Prop :=
  prop "id" body = JString (UpdateCharacter.id input) /\
  gives_text (prop "name" body) (UpdateCharacter.name input) /\
  gives_text (prop "slug" body) (UpdateCharacter.slug input) /\
  gives_text (prop "shortDescription" body)
             (UpdateCharacter.shortDescription input) /\
  gives_text (prop "fullDescription" body)
             (UpdateCharacter.fullDescription input) /\
  gives_text (prop "systemPrompt" body) (UpdateCharacter.systemPrompt input) /\
  gives_text (prop "speakingStyle" body) (UpdateCharacter.speakingStyle input) /\
  gives_text (prop "domain" body) (UpdateCharacter.domain input) /\
  gives_text (prop "avatarUrl" body) (UpdateCharacter.avatarUrl input) /\
  gives_bool (prop "isPublic" body) (UpdateCharacter.isPublic input).

(** The body of an updateChatSession call names the row [id] and gives
    exactly the columns of [input]. *)
Definition body_of_session_update (body : JsObject)
    (input : UpdateChatSession.input) : Prop :=
  prop "id" body = JString (UpdateChatSession.id input) /\
  gives_text (prop "title" body) (UpdateChatSession.title input) /\
  gives_text (prop "contextSummary" body)
             (UpdateChatSession.contextSummary input) /\
  gives_bool (prop "isPinned" body) (UpdateChatSession.isPinned input) /\
  gives_bool (prop "isArchived" body) (UpdateChatSession.isArchived input).

(** *** Schemas *)

Lemma shape_some {A} (a b : A) o : snd (shape a o) = Some b -> b = a.
Proof. cbn. congruence. Qed.

Lemma key_some {A} k (p : Schema A) o a :
  snd (key k p o) = Some a -> p (prop k o) = Some a.
Proof. unfold key. destruct (p (prop k o)); cbn; congruence. Qed.

Lemma key_none {A} k (p : Schema A) o :
  p (prop k o) = None -> snd (key k p o) = None.
Proof. unfold key. intros ->. reflexivity. Qed.

Lemma ap_some {A B} (pf : ObjectSchema (A -> B)) pa o b :
  snd ((pf <*> pa) o) = Some b ->
  exists f a, snd (pf o) = Some f /\ snd (pa o) = Some a /\ b = f a.
Proof.
  unfold ap. destruct (pf o) as [i1 [f|]], (pa o) as [i2 [a|]]; cbn;
    try discriminate.
  intros [= <-]. eauto.
Qed.

Lemma ap_none_l {A B} (pf : ObjectSchema (A -> B)) pa o :
  snd (pf o) = None -> snd ((pf <*> pa) o) = None.
Proof.
  unfold ap. destruct (pf o) as [i1 f], (pa o) as [i2 a]; cbn.
  intros ->. reflexivity.
Qed.

Lemma ap_none_r {A B} (pf : ObjectSchema (A -> B)) pa o :
  snd (pa o) = None -> snd ((pf <*> pa) o) = None.
Proof.
  unfold ap. destruct (pf o) as [i1 f], (pa o) as [i2 a]; cbn.
  intros ->. destruct f; reflexivity.
Qed.

(** Take an accepted body apart, key by key. *)
Ltac open_schema H :=
  repeat match type of H with
    | snd ((_ <*> _) _) = Some _ =>
        let f := fresh "f" in
        let a := fresh "a" in
        let Ha := fresh "Hkey" in
        let Hb := fresh "Hb" in
        destruct (ap_some _ _ _ _ H) as (f & a & H' & Ha & Hb);
        apply key_some in Ha; clear H; rename H' into H; subst
    end;
  apply shape_some in H; subst.

Lemma defineAction_accepts {I} (input : ObjectSchema I) handler body context i :
  accepts input body i ->
  defineAction input handler body context = handler i context.
Proof.
  unfold accepts, defineAction. destruct (input body) as [issues v]; cbn.
  intros ->. reflexivity.
Qed.

Lemma defineAction_rejects {I} (input : ObjectSchema I) handler body context d :
  snd (input body) = None ->
  defineAction input handler body context d
  = (Threw (ActionInputError (fst (input body))), d).
Proof.
  unfold defineAction. destruct (input body) as [issues v]; cbn.
  intros ->. reflexivity.
Qed.

Lemma min1_string_inv v s :
  min1 z_string v = Some s -> v = JString s /\ s <> "".
Proof.
  unfold min1, z_string. destruct v; try discriminate.
  destruct s0; cbn; [discriminate|]. intros [= <-]. split; congruence.
Qed.

(** *** Where-clauses *)

Lemma eq_text_true {R} (col : R -> string) v r :
  eq_text col v r = true <-> col r = v.
Proof. unfold eq_text. apply String.eqb_eq. Qed.

Lemma eq_text_null_true {R} (col : R -> option string) v r :
  eq_text_null col v r = true <-> col r = Some v.
Proof.
  unfold eq_text_null. destruct (col r) as [s|].
  - rewrite String.eqb_eq. split; congruence.
  - split; discriminate.
Qed.

Lemma strict_eq_true a b : strict_eq a b = true <-> a = Some b.
Proof. apply (eq_text_null_true (fun x : option string => x) b a). Qed.

Lemma eq_bool_true {R} (col : R -> bool) v r :
  eq_bool col v r = true <-> col r = v.
Proof. unfold eq_bool. apply Bool.eqb_true_iff. Qed.

Lemma baseVisibility_true c :
  baseVisibility c = true <->
  Character.isPublic c = true \/ Character.isSystem c = true.
Proof.
  unfold baseVisibility, or_. rewrite orb_true_iff, !eq_bool_true. reflexivity.
Qed.

Lemma truthy_true s : truthy s = true <-> s <> "".
Proof.
  unfold truthy. rewrite negb_true_iff. split.
  - intros H ->. discriminate.
  - intros H. destruct (String.eqb_spec s ""); congruence.
Qed.

Lemma listCharacters_where_true input context c :
  listCharacters_where input (caller_id context) c = true <->
  visible (ListCharacters.includePrivate input) context c.
Proof.
  unfold listCharacters_where, caller_id, visible.
  destruct (locals_user context) as [u|].
  - destruct (ListCharacters.includePrivate input); cbn [andb].
    + destruct (truthy (User.id u)) eqn:T.
      * unfold or_. rewrite orb_true_iff, baseVisibility_true, eq_text_null_true.
        apply truthy_true in T. split.
        -- intros [[?|?]|?]; eauto 8.
        -- intros [?|[?|(_ & u' & [= <-] & _ & ?)]]; auto.
      * rewrite baseVisibility_true. split; [intros [?|?]; auto|].
        intros [?|[?|(_ & u' & [= <-] & N & _)]]; auto.
        apply truthy_true in N. congruence.
    + rewrite baseVisibility_true. split; [intros [?|?]; auto|].
      intros [?|[?|(? & _)]]; auto; discriminate.
  - rewrite baseVisibility_true. split; [intros [?|?]; auto|].
    intros [?|[?|(_ & u' & ? & _)]]; auto; discriminate.
Qed.
(** *** Accepted bodies are read as they are *)

Lemma optional_string_gives v o :
  optional z_string v = Some o -> gives_text v o.
Proof.
  destruct v; cbn; try discriminate; intros [= <-]; reflexivity.
Qed.

Lemma optional_min1_gives v o :
  optional (min1 z_string) v = Some o -> gives_text v o.
Proof.
  destruct v; cbn; try discriminate; try (intros [= <-]; reflexivity).
  destruct (String.length s); [discriminate|].
  intros [= <-]. reflexivity.
Qed.

Lemma optional_url_gives v o :
  optional (url z_string) v = Some o -> gives_text v o.
Proof.
  destruct v; cbn; try discriminate; try (intros [= <-]; reflexivity).
  unfold url. cbn. destruct (is_url s); [|discriminate].
  intros [= <-]. reflexivity.
Qed.

Lemma optional_boolean_gives v o :
  optional z_boolean v = Some o -> gives_bool v o.
Proof.
  destruct v; cbn; try discriminate; intros [= <-]; reflexivity.
Qed.

Lemma default_boolean_gives v b :
  default z_boolean false v = Some b -> gives_flag v b.
Proof.
  destruct v; cbn; try discriminate; intros [= <-];
    [right; split; reflexivity|left; reflexivity].
Qed.

Lemma gives_flag_default v b :
  gives_flag v b -> default z_boolean false v = Some b.
Proof. intros [->|[-> ->]]; reflexivity. Qed.

Lemma gives_text_optional v o :
  gives_text v o -> optional z_string v = Some o.
Proof. destruct o; cbn; intros ->; reflexivity. Qed.

Lemma gives_bool_some v o b : gives_bool v o -> v = JBool b -> o = Some b.
Proof. destruct o; cbn; intros -> [= <-]. reflexivity. Qed.

Lemma listCharacters_accepts_flag body b :
  gives_flag (prop "includePrivate" body) b ->
  accepts listCharacters_input body (ListCharacters.mk b).
Proof.
  intros H. unfold accepts, listCharacters_input, ap, shape, key.
  rewrite (gives_flag_default _ _ H). reflexivity.
Qed.

Lemma listMyChatSessions_accepts_flag body b :
  gives_flag (prop "includeArchived" body) b ->
  accepts listMyChatSessions_input body (ListMyChatSessions.mk b).
Proof.
  intros H. unfold accepts, listMyChatSessions_input, ap, shape, key.
  rewrite (gives_flag_default _ _ H). reflexivity.
Qed.

Lemma createChatSession_accepts_body body cid title :
  prop "characterId" body = JString cid ->
  cid <> "" ->
  gives_text (prop "title" body) title ->
  accepts createChatSession_input body (CreateChatSession.mk cid title).
Proof.
  intros Hc Hne Ht. unfold accepts, createChatSession_input, ap, shape, key.
  rewrite Hc, (gives_text_optional _ _ Ht).
  destruct cid; [congruence|reflexivity].
Qed.

Lemma updateCharacter_reads_body body input :
  accepts updateCharacter_input body input ->
  body_of_character_update body input.
Proof.
  intros H. unfold accepts, updateCharacter_input in H. open_schema H.
  unfold body_of_character_update. cbn.
  apply min1_string_inv in Hkey8 as [Hid _].
  repeat split;
    auto using optional_string_gives, optional_min1_gives, optional_url_gives,
      optional_boolean_gives.
Qed.

Lemma updateChatSession_reads_body body input :
  accepts updateChatSession_input body input ->
  body_of_session_update body input.
Proof.
  intros H. unfold accepts, updateChatSession_input in H. open_schema H.
  unfold body_of_session_update. cbn.
  apply min1_string_inv in Hkey3 as [Hid _].
  repeat split; auto using optional_string_gives, optional_boolean_gives.
Qed.

Lemma createCharacter_reads_isPublic body input :
  accepts createCharacter_input body input ->
  gives_bool (prop "isPublic" body) (CreateCharacter.isPublic input).
Proof.
  intros H. unfold accepts, createCharacter_input in H. open_schema H.
  cbn. apply optional_boolean_gives. assumption.
Qed.

(** *** Listing *)



Lemma listMyChatSessions_where_true input uid s :
  listMyChatSessions_where input uid s = true <->
  Session.userId s = uid /\
  (ListMyChatSessions.includeArchived input = true \/
   Session.isArchived s = false).
Proof.
  unfold listMyChatSessions_where.
  destruct (ListMyChatSessions.includeArchived input); cbn [negb].
  - rewrite eq_text_true. split; [auto|intros [H _]; exact H].
  - unfold and_. rewrite andb_true_iff, eq_text_true, eq_bool_true.
    split; [intros [H1 H2]; auto|].
    intros [H1 [H2|H2]]; [discriminate|auto].
Qed.

(** C8. For every authenticated caller [u] and every call of
    listMyChatSessions whose body gives [includeArchived] as [b] (false
    when the key is absent, the default), the call returns, in table
    order, exactly the stored sessions owned by [u] when [b] is true,
    and exactly those owned by [u] and not archived when [b] is false;
    a session of another user is never returned. *)
Theorem listMyChatSessions_exact :
  forall body context u d b,
    gives_flag (prop "includeArchived" body) b ->
    locals_user context = Some u ->
    exists items,
      listMyChatSessions body context d
      = (Returned (DataSessions items (length items)),
         touch (Select T_CharacterChatSessions) d) /\
      (exists keep, items = filter keep (CharacterChatSessions d)) /\
      (forall s, In s items <->
                 In s (CharacterChatSessions d) /\
                 Session.userId s = User.id u /\
                 (b = true \/ Session.isArchived s = false)) /\
      (forall s, In s items -> Session.userId s = User.id u).
Proof.
  intros body context u d b Hb Hu.
  pose proof (listMyChatSessions_accepts_flag body b Hb) as Hacc.
  unfold listMyChatSessions. rewrite (defineAction_accepts _ _ _ _ _ Hacc).
  unfold requireUser, bind. rewrite Hu. cbn.
  eexists. split; [reflexivity|]. split; [eexists; reflexivity|]. split.
  - intros s. rewrite filter_In, listMyChatSessions_where_true. reflexivity.
  - intros s Hin. apply filter_In in Hin as [_ Hw].
    apply listMyChatSessions_where_true in Hw. exact (proj1 Hw).
Qed.

(** *** Creating rows *)

Lemma fresh_character_insert rt d :
  fresh_character_id rt d ->
  existsb (eq_text Character.id (randomUUID rt)) (AiCharacters d) = false.
Proof.
  intros F. destruct (existsb _ _) eqn:E; [|reflexivity].
  apply existsb_exists in E as (c & Hin & Hc).
  apply eq_text_true in Hc. elim (F c Hin Hc).
Qed.

Lemma fresh_session_insert rt d :
  fresh_session_id rt d ->
  existsb (eq_text Session.id (randomUUID rt)) (CharacterChatSessions d) = false.
Proof.
  intros F. destruct (existsb _ _) eqn:E; [|reflexivity].
  apply existsb_exists in E as (s & Hin & Hs).
  apply eq_text_true in Hs. elim (F s Hin Hs).
Qed.


(** C4. For every authenticated caller and every accepted body, with a
    generated id that is not yet stored, createCharacter returns a
    record and appends that same record to the character table; the
    record has [isSystem = false] whatever the body holds, the caller
    as owner, [isPublic] as the body gives it and false when the body
    leaves it out, and [createdAt = updatedAt]. *)
Theorem createCharacter_record :
  forall rt body context u d input,
    accepts createCharacter_input body input ->
    locals_user context = Some u ->
    fresh_character_id rt d ->
    exists c,
      createCharacter rt body context d
      = (Returned (DataCharacter c),
         mkDb (AiCharacters d ++ [c]) (CharacterChatSessions d)
              (CharacterChatMessages d) (trail d ++ [Insert T_AiCharacters])) /\
      Character.isSystem c = false /\
      Character.userId c = Some (User.id u) /\
      (forall b, prop "isPublic" body = JBool b -> Character.isPublic c = b) /\
      (prop "isPublic" body = JUndefined -> Character.isPublic c = false) /\
      Character.createdAt c = Character.updatedAt c /\
      Character.createdAt c = now rt /\
      Character.id c = randomUUID rt /\
      Character.name c = CreateCharacter.name input.
Proof.
  intros rt body context u d input Hacc Hu Hfresh.
  unfold createCharacter. rewrite (defineAction_accepts _ _ _ _ _ Hacc).
  unfold requireUser, bind. rewrite Hu. cbn.
  unfold insert_AiCharacters. cbn [Character.id].
  rewrite (fresh_character_insert _ _ Hfresh).
  eexists. split; [reflexivity|]. cbn.
  repeat split; auto.
  - intros b Hb. unfold accepts, createCharacter_input in Hacc.
    open_schema Hacc. rewrite Hb in Hkey. cbn in Hkey.
    injection Hkey as <-. reflexivity.
  - intros Hb. unfold accepts, createCharacter_input in Hacc.
    open_schema Hacc. rewrite Hb in Hkey. cbn in Hkey.
    injection Hkey as <-. reflexivity.
Qed.

(** C3. For every authenticated caller and every call of
    createChatSession whose body gives the non-empty [characterId] [cid]
    (and a title or none): the call throws NOT_FOUND when no stored
    character has the id [cid]; throws FORBIDDEN when the character
    found is neither public, nor system, nor owned by the caller (the
    tables stay as they were in both cases); and otherwise, with a
    generated id that is not yet stored, returns a session and appends
    it: owned by the caller, referring to that character, with the title
    of the body, not pinned, not archived, without context summary or
    last-message date, created and updated now. *)
Theorem createChatSession_outcomes :
  forall rt body context u d cid title,
    prop "characterId" body = JString cid ->
    cid <> "" ->
    gives_text (prop "title" body) title ->
    locals_user context = Some u ->
    let found := filter (eq_text Character.id cid) (AiCharacters d) in
    (found = [] ->
     createChatSession rt body context d
     = (Threw (ActionError NOT_FOUND "Character not found."),
        touch (Select T_AiCharacters) d)) /\
    (forall c rest,
       found = c :: rest ->
       Character.isPublic c = false ->
       Character.isSystem c = false ->
       Character.userId c <> Some (User.id u) ->
       createChatSession rt body context d
       = (Threw (ActionError FORBIDDEN
                   "You do not have access to this character."),
          touch (Select T_AiCharacters) d)) /\
    (forall c rest,
       found = c :: rest ->
       Character.isPublic c = true \/ Character.isSystem c = true \/
       Character.userId c = Some (User.id u) ->
       fresh_session_id rt d ->
       let session :=
         Session.mk (randomUUID rt) (Character.id c) (User.id u) title
                    None false false (now rt) (now rt) None in
       Character.id c = cid /\
       createChatSession rt body context d
       = (Returned (DataSession session),
          mkDb (AiCharacters d) (CharacterChatSessions d ++ [session])
               (CharacterChatMessages d)
               (trail d ++ [Select T_AiCharacters;
                            Insert T_CharacterChatSessions]))).
Proof.
  intros rt body context u d cid title Hcid Hne Htitle Hu found.
  pose proof (createChatSession_accepts_body body cid title Hcid Hne Htitle)
    as Hacc.
  set (session :=
         Session.mk (randomUUID rt) cid (User.id u) title
                    None false false (now rt) (now rt) None).
  assert (Hrun : createChatSession rt body context d
                 = match found with
                   | [] => throw (ActionError NOT_FOUND "Character not found.")
                   | character :: _ =>
                       if negb (Character.isPublic character)
                          && negb (Character.isSystem character)
                          && negb (strict_eq (Character.userId character)
                                             (User.id u))
                       then throw (ActionError FORBIDDEN
                                     "You do not have access to this character.")
                       else
                         insert_CharacterChatSessions session ;;
                         ret (DataSession session)
                   end (touch (Select T_AiCharacters) d)).
  { unfold createChatSession. rewrite (defineAction_accepts _ _ _ _ _ Hacc).
    unfold requireUser. rewrite Hu. reflexivity. }
  rewrite Hrun. clear Hrun.
  split; [|split].
  - intros ->. reflexivity.
  - intros c rest Hf Hp Hs Ho. rewrite Hf, Hp, Hs. cbn [negb andb].
    destruct (strict_eq _ _) eqn:E.
    + apply strict_eq_true in E. contradiction.
    + reflexivity.
  - intros c rest Hf Hvis Hfresh session'.
    assert (Hid : Character.id c = cid).
    { assert (Hin : In c found) by (rewrite Hf; left; reflexivity).
      apply filter_In in Hin as [_ Hin]. now apply eq_text_true in Hin. }
    split; [exact Hid|].
    rewrite Hf.
    assert (Hgate : negb (Character.isPublic c) && negb (Character.isSystem c)
                    && negb (strict_eq (Character.userId c) (User.id u)) = false).
    { destruct Hvis as [->|[->|Ho]]; cbn.
      - reflexivity.
      - now rewrite andb_false_r.
      - apply strict_eq_true in Ho. rewrite Ho. cbn. now rewrite andb_false_r. }
    rewrite Hgate. unfold bind, insert_CharacterChatSessions.
    subst session session'.
    cbn [Session.id touch CharacterChatSessions AiCharacters
         CharacterChatMessages trail].
    rewrite (fresh_session_insert _ _ Hfresh).
    rewrite Hid, <- app_assoc. reflexivity.
Qed.

(** *** Rejected bodies *)

Lemma ap_issues {A B} (pf : ObjectSchema (A -> B)) pa o :
  fst ((pf <*> pa) o) = fst (pf o) ++ fst (pa o).
Proof. unfold ap. destruct (pf o), (pa o). reflexivity. Qed.

Lemma key_issue {A} k (p : Schema A) o :
  p (prop k o) = None -> fst (key k p o) = [k].
Proof. unfold key. intros ->. reflexivity. Qed.

Lemma enum_senderRole_outside v :
  (forall r, v <> JString (role_text r)) -> z_enum_senderRole v = None.
Proof.
  intros H. destruct v; try reflexivity. cbn.
  destruct (String.eqb_spec s "user") as [->|_]; [elim (H RoleUser); reflexivity|].
  destruct (String.eqb_spec s "character") as [->|_];
    [elim (H RoleCharacter); reflexivity|].
  destruct (String.eqb_spec s "system") as [->|_];
    [elim (H RoleSystem); reflexivity|].
  reflexivity.
Qed.

(** C7. For every call of createChatMessage whose content is the empty
    string, or whose senderRole is none of "user", "character",
    "system", the call throws the validation error, naming the key, and
    the database is left exactly as it was: no table is written and no
    table is read, so the sessions keep their dates. *)
Theorem createChatMessage_rejects_before_store :
  forall rt body context d,
    prop "content" body = JString "" \/
    (forall r, prop "senderRole" body <> JString (role_text r)) ->
    exists issues,
      createChatMessage rt body context d = (Threw (ActionInputError issues), d) /\
      (In "content" issues \/ In "senderRole" issues) /\
      CharacterChatSessions (snd (createChatMessage rt body context d))
      = CharacterChatSessions d /\
      trail (snd (createChatMessage rt body context d)) = trail d.
Proof.
  intros rt body context d H.
  assert (Hrej : snd (createChatMessage_input body) = None /\
                 (In "content" (fst (createChatMessage_input body)) \/
                  In "senderRole" (fst (createChatMessage_input body)))).
  { unfold createChatMessage_input. rewrite !ap_issues, !in_app_iff.
    destruct H as [Hc|Hr].
    - assert (Hk : min1 z_string (prop "content" body) = None)
        by (rewrite Hc; reflexivity).
      split.
      + apply ap_none_l, ap_none_r, key_none, Hk.
      + left. left. right. rewrite (key_issue _ _ _ Hk). now left.
    - pose proof (enum_senderRole_outside _ Hr) as Hk. split.
      + apply ap_none_l, ap_none_l, ap_none_r, key_none, Hk.
      + right. left. left. right. rewrite (key_issue _ _ _ Hk). now left. }
  destruct Hrej as [Hnone Hin].
  exists (fst (createChatMessage_input body)).
  unfold createChatMessage. rewrite (defineAction_rejects _ _ _ _ _ Hnone).
  auto.
Qed.

(** *** Calls without a caller *)

Lemma defineAction_cases {I} (input : ObjectSchema I) handler body context d :
  (exists i, snd (input body) = Some i /\
             defineAction input handler body context d = handler i context d) \/
  (snd (input body) = None /\
   defineAction input handler body context d
   = (Threw (ActionInputError (fst (input body))), d)).
Proof.
  unfold defineAction. destruct (input body) as [issues [i|]]; cbn; eauto.
Qed.

(** C9 (as amended). Without a caller, every action other than
    listCharacters leaves the database untouched (no read, no write)
    and throws: UNAUTHORIZED when the body passes the schema, the
    validation error when it does not. listCharacters, on a body that
    passes its schema, returns without a caller. *)
Theorem calls_without_caller :
  forall a rt body context d,
    locals_user context = None ->
    (a <> Action.listCharacters ->
     snd (server a rt body context d) = d /\
     (schema_accepts a body = true ->
      fst (server a rt body context d) = Threw signed_out) /\
     (schema_accepts a body = false ->
      exists issues,
        fst (server a rt body context d) = Threw (ActionInputError issues))) /\
    (a = Action.listCharacters ->
     schema_accepts a body = true ->
     exists items,
       fst (server a rt body context d)
       = Returned (DataCharacters items (length items)) /\
       same_tables d (snd (server a rt body context d))).
Proof.
  intros a rt body context d Hu. split.
  - intros Hneq.
    destruct a; try congruence; cbn [server schema_accepts];
      unfold createCharacter, updateCharacter, createChatSession,
        updateChatSession, listMyChatSessions, createChatMessage,
        listChatMessages;
      match goal with
      | |- context [defineAction ?s ?h body context d] =>
          destruct (defineAction_cases s h body context d)
            as [(i & Hi & ->)|(Hi & ->)]; rewrite Hi;
            [ unfold requireUser, bind; rewrite Hu; cbn;
              repeat split; discriminate
            | cbn; repeat split; [discriminate | eauto] ]
      end.
  - intros -> Hacc. cbn [server schema_accepts] in *.
    destruct (snd (listCharacters_input body)) as [i|] eqn:Hi; [|discriminate].
    unfold listCharacters. rewrite (defineAction_accepts _ _ _ _ _ Hi).
    eexists. split; [reflexivity|]. cbn. repeat split.
Qed.

(** *** Owner-scoped actions: the two ways of being turned away *)

Lemma string_neq_eqb (a b : string) : a <> b -> String.eqb a b = false.
Proof. intros H. destruct (String.eqb_spec a b); congruence. Qed.

Lemma strict_eq_false a b : a <> Some b -> strict_eq a b = false.
Proof.
  intros H. destruct (strict_eq a b) eqn:E; [|reflexivity].
  apply strict_eq_true in E. contradiction.
Qed.

(** An owner-scoped action whose body is accepted, called by [u] on a
    row that is missing or not [u]'s: one select, then the denial. *)
Lemma owner_scoped_denied a rt body context u id d :
  owner_scoped a = true ->
  locals_user context = Some u ->
  prop (target_key a) body = JString id ->
  schema_accepts a body = true ->
  target_absent a id d \/ target_foreign a id (User.id u) d ->
  server a rt body context d = (Threw (denial a), touch (Select (target_table a)) d).
Proof.
  intros Ha Hu Hid Hacc Hrow.
  unfold target_absent, target_foreign in Hrow.
  destruct a; try discriminate;
    cbn [server schema_accepts target_key target_owners denial target_table] in *.
  - destruct (snd (updateCharacter_input body)) as [i|] eqn:Hi; [|discriminate].
    unfold updateCharacter. rewrite (defineAction_accepts _ _ _ _ _ Hi).
    assert (Hsame : UpdateCharacter.id i = id).
    { unfold updateCharacter_input in Hi. open_schema Hi.
      apply min1_string_inv in Hkey8 as [Hv _]. cbn. congruence. }
    unfold requireUser, bind, select_AiCharacters. rewrite Hu, Hsame. cbn.
    destruct Hrow as [Hnil|(o & rest & Hcons & Hneq)].
    + apply map_eq_nil in Hnil. rewrite Hnil. reflexivity.
    + destruct (filter _ _) as [|c cs]; [discriminate|].
      cbn in Hcons. injection Hcons as <- _.
      rewrite (strict_eq_false _ _ Hneq). reflexivity.
  - destruct (snd (updateChatSession_input body)) as [i|] eqn:Hi; [|discriminate].
    unfold updateChatSession. rewrite (defineAction_accepts _ _ _ _ _ Hi).
    assert (Hsame : UpdateChatSession.id i = id).
    { unfold updateChatSession_input in Hi. open_schema Hi.
      apply min1_string_inv in Hkey3 as [Hv _]. cbn. congruence. }
    unfold requireUser, bind, select_CharacterChatSessions. rewrite Hu, Hsame. cbn.
    destruct Hrow as [Hnil|(o & rest & Hcons & Hneq)].
    + apply map_eq_nil in Hnil. rewrite Hnil. reflexivity.
    + destruct (filter _ _) as [|s ss]; [discriminate|].
      cbn in Hcons. injection Hcons as <- _.
      rewrite string_neq_eqb by congruence. reflexivity.
  - destruct (snd (createChatMessage_input body)) as [i|] eqn:Hi; [|discriminate].
    unfold createChatMessage. rewrite (defineAction_accepts _ _ _ _ _ Hi).
    assert (Hsame : CreateChatMessage.sessionId i = id).
    { unfold createChatMessage_input in Hi. open_schema Hi.
      apply min1_string_inv in Hkey2 as [Hv _]. cbn. congruence. }
    unfold requireUser, bind, select_CharacterChatSessions. rewrite Hu, Hsame. cbn.
    destruct Hrow as [Hnil|(o & rest & Hcons & Hneq)].
    + apply map_eq_nil in Hnil. rewrite Hnil. reflexivity.
    + destruct (filter _ _) as [|s ss]; [discriminate|].
      cbn in Hcons. injection Hcons as <- _.
      rewrite string_neq_eqb by congruence. reflexivity.
  - destruct (snd (listChatMessages_input body)) as [i|] eqn:Hi; [|discriminate].
    unfold listChatMessages. rewrite (defineAction_accepts _ _ _ _ _ Hi).
    assert (Hsame : ListChatMessages.sessionId i = id).
    { unfold listChatMessages_input in Hi. open_schema Hi.
      apply min1_string_inv in Hkey as [Hv _]. cbn. congruence. }
    unfold requireUser, bind, select_CharacterChatSessions. rewrite Hu, Hsame. cbn.
    destruct Hrow as [Hnil|(o & rest & Hcons & Hneq)].
    + apply map_eq_nil in Hnil. rewrite Hnil. reflexivity.
    + destruct (filter _ _) as [|s ss]; [discriminate|].
      cbn in Hcons. injection Hcons as <- _.
      rewrite string_neq_eqb by congruence. reflexivity.
Qed.

Lemma schema_rejected a rt body context d :
  schema_accepts a body = false ->
  exists issues,
    server a rt body context d = (Threw (ActionInputError issues), d) /\
    forall rt' context' d',
      server a rt' body context' d' = (Threw (ActionInputError issues), d').
Proof.
  intros Hrej.
  destruct a; cbn [server schema_accepts] in *;
    unfold createCharacter, updateCharacter, listCharacters, createChatSession,
      updateChatSession, listMyChatSessions, createChatMessage, listChatMessages;
    match goal with
    | |- context [defineAction ?s ?h body context d] =>
        destruct (snd (s body)) eqn:Hs; [discriminate|];
        exists (fst (s body)); split; [|intros rt' context' d'];
        apply (defineAction_rejects s); exact Hs
    end.
Qed.

(** C2. For every authenticated caller and each of updateCharacter,
    updateChatSession, createChatMessage and listChatMessages: a call
    against a database where no row has the id and the same call
    against a database where the row with the id belongs to someone
    else throw the same error (same code, same message) after the same
    accesses, and neither changes a table; when the body passes the
    schema that error is the FORBIDDEN denial of the action. *)
Theorem owner_scoped_denials_indistinguishable :
  forall a rt1 rt2 body context u id d1 d2,
    owner_scoped a = true ->
    locals_user context = Some u ->
    prop (target_key a) body = JString id ->
    target_absent a id d1 ->
    target_foreign a id (User.id u) d2 ->
    exists e accesses,
      server a rt1 body context d1
      = (Threw e,
         mkDb (AiCharacters d1) (CharacterChatSessions d1)
              (CharacterChatMessages d1) (trail d1 ++ accesses)) /\
      server a rt2 body context d2
      = (Threw e,
         mkDb (AiCharacters d2) (CharacterChatSessions d2)
              (CharacterChatMessages d2) (trail d2 ++ accesses)) /\
      (schema_accepts a body = true -> e = denial a /\ code_of e = FORBIDDEN).
Proof.
  intros a rt1 rt2 body context u id d1 d2 Ha Hu Hid Habs Hfor.
  destruct (schema_accepts a body) eqn:Hacc.
  - exists (denial a), [Select (target_table a)].
    rewrite (owner_scoped_denied a rt1 body context u id d1) by auto.
    rewrite (owner_scoped_denied a rt2 body context u id d2) by auto.
    repeat split. destruct a; reflexivity.
  - destruct (schema_rejected a rt1 body context d1 Hacc) as (issues & H1 & Hall).
    exists (ActionInputError issues), [].
    rewrite H1, (Hall rt2 context d2), !app_nil_r.
    destruct d1, d2. repeat split; discriminate.
Qed.

(** *** Updates *)

Lemma character_target_true id uid r :
  character_target id uid r = true <->
  Character.id r = id /\ Character.userId r = Some uid.
Proof.
  unfold character_target, and_.
  rewrite andb_true_iff, eq_text_true, eq_text_null_true. reflexivity.
Qed.

Lemma session_target_true id uid r :
  session_target id uid r = true <->
  Session.id r = id /\ Session.userId r = uid.
Proof.
  unfold session_target, and_.
  rewrite andb_true_iff, !eq_text_true. reflexivity.
Qed.

Lemma updateCharacter_run rt body context u d input :
  accepts updateCharacter_input body input ->
  locals_user context = Some u ->
  updateCharacter rt body context d
  = match filter (eq_text Character.id (UpdateCharacter.id input))
                 (AiCharacters d) with
    | [] => (Threw (denial Action.updateCharacter), touch (Select T_AiCharacters) d)
    | character :: _ =>
        if strict_eq (Character.userId character) (User.id u)
        then
          (Returned (DataId (UpdateCharacter.id input)),
           mkDb (map (fun r =>
                        if character_target (UpdateCharacter.id input) (User.id u) r
                        then set_character (updateCharacter_data rt input) r
                        else r)
                     (AiCharacters d))
                (CharacterChatSessions d) (CharacterChatMessages d)
                (trail d ++ [Select T_AiCharacters; Update T_AiCharacters]))
        else (Threw (denial Action.updateCharacter), touch (Select T_AiCharacters) d)
    end.
Proof.
  intros Hacc Hu. unfold updateCharacter.
  rewrite (defineAction_accepts _ _ _ _ _ Hacc).
  unfold requireUser, bind, select_AiCharacters. rewrite Hu. cbn.
  destruct (filter _ _) as [|c cs]; [reflexivity|].
  destruct (strict_eq _ _); cbn; [|reflexivity].
  rewrite <- app_assoc. reflexivity.
Qed.

Lemma updateChatSession_run rt body context u d input :
  accepts updateChatSession_input body input ->
  locals_user context = Some u ->
  updateChatSession rt body context d
  = match filter (eq_text Session.id (UpdateChatSession.id input))
                 (CharacterChatSessions d) with
    | [] => (Threw (denial Action.updateChatSession),
             touch (Select T_CharacterChatSessions) d)
    | session :: _ =>
        if String.eqb (Session.userId session) (User.id u)
        then
          (Returned (DataId (UpdateChatSession.id input)),
           mkDb (AiCharacters d)
                (map (fun r =>
                        if session_target (UpdateChatSession.id input) (User.id u) r
                        then set_session (updateChatSession_data rt input) r
                        else r)
                     (CharacterChatSessions d))
                (CharacterChatMessages d)
                (trail d ++ [Select T_CharacterChatSessions;
                             Update T_CharacterChatSessions]))
        else (Threw (denial Action.updateChatSession),
              touch (Select T_CharacterChatSessions) d)
    end.
Proof.
  intros Hacc Hu. unfold updateChatSession.
  rewrite (defineAction_accepts _ _ _ _ _ Hacc).
  unfold requireUser, bind, select_CharacterChatSessions. rewrite Hu. cbn.
  destruct (filter _ _) as [|c cs]; [reflexivity|].
  destruct (String.eqb _ _); cbn; [|reflexivity].
  rewrite <- app_assoc. reflexivity.
Qed.

(** Whatever the call, updateCharacter leaves the character table as
    it was or maps its partial update over the targeted rows. *)
Lemma updateCharacter_tables rt body context d :
  let d' := snd (updateCharacter rt body context d) in
  CharacterChatSessions d' = CharacterChatSessions d /\
  CharacterChatMessages d' = CharacterChatMessages d /\
  (AiCharacters d' = AiCharacters d \/
   exists input w,
     AiCharacters d'
     = map (fun r => if (w r : bool)
                     then set_character (updateCharacter_data rt input) r
                     else r)
           (AiCharacters d)).
Proof.
  cbn zeta. unfold updateCharacter.
  destruct (defineAction_cases updateCharacter_input
              (fun input context =>
                 user <- requireUser context ;;
                 existing <- select_AiCharacters
                   (eq_text Character.id (UpdateCharacter.id input)) ;;
                 match existing with
                 | [] => throw (denial Action.updateCharacter)
                 | character :: _ =>
                     if negb (strict_eq (Character.userId character) (User.id user))
                     then throw (denial Action.updateCharacter)
                     else
                       update_AiCharacters (updateCharacter_data rt input)
                         (and_ (eq_text Character.id (UpdateCharacter.id input))
                               (eq_text_null Character.userId (User.id user))) ;;
                       ret (DataId (UpdateCharacter.id input))
                 end)
              body context d) as [(i & Hi & E)|(Hi & E)];
    cbn [denial] in E; rewrite E; clear E; [|cbn; auto].
  unfold requireUser. destruct (locals_user context) as [u|]; [|cbn; auto].
  unfold bind, select_AiCharacters, ret. cbn.
  destruct (filter _ _) as [|c cs]; [cbn; auto|].
  destruct (strict_eq _ _); cbn; [|auto].
  split; [reflexivity|]. split; [reflexivity|]. right. eauto.
Qed.

Lemma updateChatSession_tables rt body context d :
  let d' := snd (updateChatSession rt body context d) in
  AiCharacters d' = AiCharacters d /\
  CharacterChatMessages d' = CharacterChatMessages d /\
  (CharacterChatSessions d' = CharacterChatSessions d \/
   exists input w,
     CharacterChatSessions d'
     = map (fun r => if (w r : bool)
                     then set_session (updateChatSession_data rt input) r
                     else r)
           (CharacterChatSessions d)).
Proof.
  cbn zeta. unfold updateChatSession.
  destruct (defineAction_cases updateChatSession_input
              (fun input context =>
                 user <- requireUser context ;;
                 found <- select_CharacterChatSessions
                   (eq_text Session.id (UpdateChatSession.id input)) ;;
                 match found with
                 | [] => throw (denial Action.updateChatSession)
                 | session :: _ =>
                     if negb (String.eqb (Session.userId session) (User.id user))
                     then throw (denial Action.updateChatSession)
                     else
                       update_CharacterChatSessions
                         (updateChatSession_data rt input)
                         (and_ (eq_text Session.id (UpdateChatSession.id input))
                               (eq_text Session.userId (User.id user))) ;;
                       ret (DataId (UpdateChatSession.id input))
                 end)
              body context d) as [(i & Hi & E)|(Hi & E)];
    cbn [denial] in E; rewrite E; clear E; [|cbn; auto].
  unfold requireUser. destruct (locals_user context) as [u|]; [|cbn; auto].
  unfold bind, select_CharacterChatSessions, ret. cbn.
  destruct (filter _ _) as [|c cs]; [cbn; auto|].
  destruct (String.eqb _ _); cbn; [|auto].
  split; [reflexivity|]. split; [reflexivity|]. right. eauto.
Qed.

Lemma Forall2_same {A} (R : A -> A -> Prop) l :
  (forall a, R a a) -> Forall2 R l l.
Proof. intros H. induction l; constructor; auto. Qed.

Lemma Forall2_map_right {A} (R : A -> A -> Prop) (f : A -> A) l :
  (forall a, R a (f a)) -> Forall2 R l (map f l).
Proof. intros H. induction l; cbn; constructor; auto. Qed.

Lemma Forall2_chain {A} (R : A -> A -> Prop) l1 l2 l3 :
  (forall a b c, R a b -> R b c -> R a c) ->
  Forall2 R l1 l2 -> Forall2 R l2 l3 -> Forall2 R l1 l3.
Proof.
  intros T H12. revert l3.
  induction H12; intros l3 H23; inversion H23; subst; constructor; eauto.
Qed.

Lemma provided_or_keep {A} (given : option A) old :
  provided given old (or_keep given old).
Proof. destruct given; reflexivity. Qed.

Lemma provided_text_or_keep given old :
  provided_text given old (or_keep (if_defined given) old).
Proof. destruct given; reflexivity. Qed.

Lemma set_character_partial rt input r :
  character_partially_updated rt input r
    (set_character (updateCharacter_data rt input) r).
Proof.
  unfold character_partially_updated. cbn.
  repeat split; auto using provided_or_keep, provided_text_or_keep.
Qed.

Lemma set_session_partial rt input s :
  session_partially_updated rt input s
    (set_session (updateChatSession_data rt input) s).
Proof.
  unfold session_partially_updated. cbn.
  repeat split; auto using provided_or_keep, provided_text_or_keep.
Qed.

Lemma head_of_filter {A} (w : A -> bool) l a rest :
  filter w l = a :: rest -> In a l /\ w a = true.
Proof.
  intros H. apply filter_In. rewrite H. now left.
Qed.

(** C6. For every successful updateCharacter and updateChatSession by
    the owner: the input applied is what the body gives, key by key
    (the id it names, and for each column the value at its key or
    nothing when the key is absent); every row of the caller with that
    id carries the provided values in exactly the provided columns, its
    former values in all the others, and [updatedAt = now]; every other
    row, and every other table, is as it was. For any call at all,
    successful or not, these two actions leave id, owner and (for
    characters) [isSystem] of every row unchanged. *)
Theorem updates_are_partial :
  forall rt body context d,
    (forall u input c rest,
       locals_user context = Some u ->
       accepts updateCharacter_input body input ->
       filter (eq_text Character.id (UpdateCharacter.id input)) (AiCharacters d)
       = c :: rest ->
       Character.userId c = Some (User.id u) ->
       body_of_character_update body input /\
       exists rows,
         updateCharacter rt body context d
         = (Returned (DataId (UpdateCharacter.id input)),
            mkDb rows (CharacterChatSessions d) (CharacterChatMessages d)
                 (trail d ++ [Select T_AiCharacters; Update T_AiCharacters])) /\
         Forall2
           (fun r r' =>
              (Character.id r = UpdateCharacter.id input /\
               Character.userId r = Some (User.id u) ->
               character_partially_updated rt input r r') /\
              (~ (Character.id r = UpdateCharacter.id input /\
                  Character.userId r = Some (User.id u)) ->
               r' = r))
           (AiCharacters d) rows /\
         In c (AiCharacters d) /\
         Character.id c = UpdateCharacter.id input) /\
    (forall u input s rest,
       locals_user context = Some u ->
       accepts updateChatSession_input body input ->
       filter (eq_text Session.id (UpdateChatSession.id input))
              (CharacterChatSessions d)
       = s :: rest ->
       Session.userId s = User.id u ->
       body_of_session_update body input /\
       exists rows,
         updateChatSession rt body context d
         = (Returned (DataId (UpdateChatSession.id input)),
            mkDb (AiCharacters d) rows (CharacterChatMessages d)
                 (trail d ++ [Select T_CharacterChatSessions;
                              Update T_CharacterChatSessions])) /\
         Forall2
           (fun r r' =>
              (Session.id r = UpdateChatSession.id input /\
               Session.userId r = User.id u ->
               session_partially_updated rt input r r') /\
              (~ (Session.id r = UpdateChatSession.id input /\
                  Session.userId r = User.id u) ->
               r' = r))
           (CharacterChatSessions d) rows /\
         In s (CharacterChatSessions d) /\
         Session.id s = UpdateChatSession.id input) /\
    Forall2 character_protected
            (AiCharacters d)
            (AiCharacters (snd (updateCharacter rt body context d))) /\
    Forall2 session_protected
            (CharacterChatSessions d)
            (CharacterChatSessions (snd (updateChatSession rt body context d))).
Proof.
  intros rt body context d. split; [|split; [|split]].
  - intros u input c rest Hu Hacc Hf Hown.
    split; [exact (updateCharacter_reads_body body input Hacc)|].
    rewrite (updateCharacter_run _ _ _ _ _ _ Hacc Hu), Hf.
    apply strict_eq_true in Hown. rewrite Hown.
    eexists. split; [reflexivity|].
    apply head_of_filter in Hf as [Hin Hid]. apply eq_text_true in Hid.
    split; [|auto].
    apply Forall2_map_right. intros r.
    destruct (character_target _ _ r) eqn:T.
    + split; [intros _; apply set_character_partial|].
      apply character_target_true in T. intros N. elim (N T).
    + split; [|reflexivity].
      intros H. apply character_target_true in H. congruence.
  - intros u input s rest Hu Hacc Hf Hown.
    split; [exact (updateChatSession_reads_body body input Hacc)|].
    rewrite (updateChatSession_run _ _ _ _ _ _ Hacc Hu), Hf.
    rewrite Hown, String.eqb_refl.
    eexists. split; [reflexivity|].
    apply head_of_filter in Hf as [Hin Hid]. apply eq_text_true in Hid.
    split; [|auto].
    apply Forall2_map_right. intros r.
    destruct (session_target _ _ r) eqn:T.
    + split; [intros _; apply set_session_partial|].
      apply session_target_true in T. intros N. elim (N T).
    + split; [|reflexivity].
      intros H. apply session_target_true in H. congruence.
  - destruct (updateCharacter_tables rt body context d)
      as (_ & _ & [->|(input & w & ->)]).
    + apply Forall2_same. intros r. repeat split.
    + apply Forall2_map_right. intros r. destruct (w r); repeat split.
  - destruct (updateChatSession_tables rt body context d)
      as (_ & _ & [->|(input & w & ->)]).
    + apply Forall2_same. intros r. repeat split.
    + apply Forall2_map_right. intros r. destruct (w r); repeat split.
Qed.

(** *** Messages *)

Lemma filter_map_stable {A} (w : A -> bool) (f : A -> A) l :
  (forall a, w (f a) = w a) ->
  filter w (map f l) = map f (filter w l).
Proof.
  intros H. induction l as [|a l IH]; cbn; [reflexivity|].
  rewrite H. destruct (w a); cbn; now rewrite IH.
Qed.




Lemma createChatMessage_run rt body context u d input :
  accepts createChatMessage_input body input ->
  locals_user context = Some u ->
  let sid := CreateChatMessage.sessionId input in
  let message :=
    Message.mk (randomUUID rt) sid
      (if is_user (CreateChatMessage.senderRole input)
       then Some (User.id u) else None)
      (role_text (CreateChatMessage.senderRole input))
      (CreateChatMessage.content input)
      (match CreateChatMessage.metadata input with
       | Some metadata => Some (JSON_stringify metadata)
       | None => None
       end)
      (now rt) in
  createChatMessage rt body context d
  = match filter (eq_text Session.id sid) (CharacterChatSessions d) with
    | [] => (Threw (denial Action.createChatMessage),
             touch (Select T_CharacterChatSessions) d)
    | session :: _ =>
        if String.eqb (Session.userId session) (User.id u)
        then
          (insert_CharacterChatMessages message ;;
           update_CharacterChatSessions (touch_session_data (now rt))
             (session_target sid (User.id u)) ;;
           ret (DataMessage message))
            (touch (Select T_CharacterChatSessions) d)
        else (Threw (denial Action.createChatMessage),
              touch (Select T_CharacterChatSessions) d)
    end.
Proof.
  intros Hacc Hu sid message. unfold createChatMessage.
  rewrite (defineAction_accepts _ _ _ _ _ Hacc).
  unfold requireUser. rewrite Hu.
  unfold bind at 1, ret at 1. unfold bind at 1, select_CharacterChatSessions.
  fold sid. destruct (filter _ _) as [|s ss]; [reflexivity|].
  destruct (String.eqb _ _); reflexivity.
Qed.




(** *** Nullable columns under updates *)

Lemma stays_set_same {A} (o : option A) : stays_set o o.
Proof. unfold stays_set. auto. Qed.

Lemma stays_set_chain {A} (a b c : option A) :
  stays_set a b -> stays_set b c -> stays_set a c.
Proof. unfold stays_set. auto. Qed.

Lemma stays_set_if_defined {A} (given : option A) old :
  stays_set old (or_keep (if_defined given) old).
Proof. unfold stays_set. destruct given; cbn; [discriminate|auto]. Qed.

Lemma character_keeps_same r : character_keeps r r.
Proof. unfold character_keeps. auto 10 using stays_set_same. Qed.

Lemma session_keeps_same s : session_keeps s s.
Proof. unfold session_keeps. auto using stays_set_same. Qed.

Lemma character_keeps_chain a b c :
  character_keeps a b -> character_keeps b c -> character_keeps a c.
Proof.
  unfold character_keeps. intros (?&?&?&?&?&?&?) (?&?&?&?&?&?&?).
  repeat split; eapply stays_set_chain; eassumption.
Qed.

Lemma session_keeps_chain a b c :
  session_keeps a b -> session_keeps b c -> session_keeps a c.
Proof.
  unfold session_keeps. intros (?&?) (?&?).
  split; eapply stays_set_chain; eassumption.
Qed.

Lemma set_character_keeps rt input r :
  character_keeps r (set_character (updateCharacter_data rt input) r).
Proof.
  unfold character_keeps. cbn. repeat split; apply stays_set_if_defined.
Qed.

Lemma set_session_keeps rt input s :
  session_keeps s (set_session (updateChatSession_data rt input) s).
Proof.
  unfold session_keeps. cbn. split; apply stays_set_if_defined.
Qed.

Lemma update_call_keeps c d :
  is_update (call_action c) = true ->
  Forall2 character_keeps (AiCharacters d) (AiCharacters (run_call c d)) /\
  Forall2 session_keeps (CharacterChatSessions d)
          (CharacterChatSessions (run_call c d)).
Proof.
  unfold run_call. destruct c as [a rt body context]. cbn.
  destruct a; try discriminate; intros _; cbn [server].
  - destruct (updateCharacter_tables rt body context d) as (-> & _ & H).
    split; [|apply Forall2_same, session_keeps_same].
    destruct H as [->|(input & w & ->)].
    + apply Forall2_same, character_keeps_same.
    + apply Forall2_map_right. intros r.
      destruct (w r); [apply set_character_keeps|apply character_keeps_same].
  - destruct (updateChatSession_tables rt body context d) as (-> & _ & H).
    split; [apply Forall2_same, character_keeps_same|].
    destruct H as [->|(input & w & ->)].
    + apply Forall2_same, session_keeps_same.
    + apply Forall2_map_right. intros r.
      destruct (w r); [apply set_session_keeps|apply session_keeps_same].
Qed.

Lemma null_is_rejected a k body :
  is_update a = true ->
  In k (nullable_keys a) ->
  prop k body = JNull ->
  schema_accepts a body = false.
Proof.
  intros Ha Hk Hnull.
  destruct a; try discriminate; cbn [nullable_keys schema_accepts] in *.
  - assert (H : snd (updateCharacter_input body) = None);
      [|rewrite H; reflexivity].
    unfold updateCharacter_input. cbn in Hk.
    repeat (destruct Hk as [<-|Hk];
            [repeat first
               [ apply ap_none_r, key_none; rewrite Hnull; reflexivity
               | apply ap_none_l ] |]).
    contradiction.
  - assert (H : snd (updateChatSession_input body) = None);
      [|rewrite H; reflexivity].
    unfold updateChatSession_input. cbn in Hk.
    repeat (destruct Hk as [<-|Hk];
            [repeat first
               [ apply ap_none_r, key_none; rewrite Hnull; reflexivity
               | apply ap_none_l ] |]).
    contradiction.
Qed.

(** C10. Through any sequence of updateCharacter and updateChatSession
    calls, by anyone and with any bodies, a row whose slug, short or
    full description, system prompt, speaking style, domain, avatar
    url, title or context summary held a value still holds a value in
    that column afterwards; and a body that gives [null] for one of
    these keys is rejected by the schema, the database untouched. *)
Theorem optional_fields_stay_set :
  forall calls d,
    Forall (fun c => is_update (call_action c) = true) calls ->
    Forall2 character_keeps (AiCharacters d) (AiCharacters (run_calls calls d)) /\
    Forall2 session_keeps (CharacterChatSessions d)
            (CharacterChatSessions (run_calls calls d)) /\
    (forall c k,
       In c calls ->
       In k (nullable_keys (call_action c)) ->
       prop k (call_body c) = JNull ->
       forall d0, exists issues,
         server (call_action c) (call_runtime c) (call_body c) (call_context c) d0
         = (Threw (ActionInputError issues), d0)).
Proof.
  intros calls d Hall. split; [|split].
  - revert d. induction Hall as [|c calls Hc _ IH]; intros d; cbn.
    + apply Forall2_same, character_keeps_same.
    + eapply Forall2_chain; [apply character_keeps_chain| |apply IH].
      apply (update_call_keeps c d Hc).
  - revert d. induction Hall as [|c calls Hc _ IH]; intros d; cbn.
    + apply Forall2_same, session_keeps_same.
    + eapply Forall2_chain; [apply session_keeps_chain| |apply IH].
      apply (update_call_keeps c d Hc).
  - intros c k Hin Hk Hnull d0.
    rewrite Forall_forall in Hall.
    pose proof (null_is_rejected _ _ _ (Hall c Hin) Hk Hnull) as Hrej.
    destruct (schema_rejected _ (call_runtime c) _ (call_context c) d0 Hrej)
      as (issues & H & _).
    eauto.
Qed.

(** *** Every call is one of the effects *)

Lemma existsb_false_fresh {R} (col : R -> string) v l :
  existsb (eq_text col v) l = false ->
  forall r, In r l -> col r <> v.
Proof.
  intros E r Hin Heq.
  assert (X : existsb (eq_text col v) l = true).
  { apply existsb_exists. exists r. split; [exact Hin|]. now apply eq_text_true. }
  congruence.
Qed.

Lemma same_tables_refl d : same_tables d d.
Proof. repeat split. Qed.

Lemma same_tables_touch x d : same_tables d (touch x d).
Proof. repeat split. Qed.

Lemma createCharacter_effect rt body context d :
  Effect (caller_id context) d (createCharacter rt body context d).
Proof.
  unfold createCharacter.
  match goal with
  | |- context [defineAction ?s ?h body context d] =>
      destruct (defineAction_cases s h body context d) as [(i & Hi & ->)|(Hi & ->)]
  end; [|apply effect_read, same_tables_refl].
  unfold requireUser, caller_id.
  destruct (locals_user context) as [u|]; [|apply effect_read, same_tables_refl].
  unfold bind, ret, insert_AiCharacters. cbn.
  destruct (existsb _ _) eqn:E; [apply effect_read, same_tables_touch|].
  eapply effect_new_character; try reflexivity.
  cbn. apply (existsb_false_fresh _ _ _ E).
Qed.

Lemma updateCharacter_effect rt body context d :
  Effect (caller_id context) d (updateCharacter rt body context d).
Proof.
  unfold updateCharacter.
  match goal with
  | |- context [defineAction ?s ?h body context d] =>
      destruct (defineAction_cases s h body context d) as [(i & Hi & ->)|(Hi & ->)]
  end; [|apply effect_read, same_tables_refl].
  unfold requireUser, caller_id.
  destruct (locals_user context) as [u|]; [|apply effect_read, same_tables_refl].
  unfold bind, ret, select_AiCharacters, update_AiCharacters. cbn.
  destruct (filter _ _) as [|c cs] eqn:F; [apply effect_read, same_tables_touch|].
  destruct (strict_eq _ _) eqn:O; cbn; [|apply effect_read, same_tables_touch].
  apply head_of_filter in F as [Hin Hid].
  apply eq_text_true in Hid. apply strict_eq_true in O.
  eapply effect_update_characters with (c := c); try reflexivity; auto.
Qed.

Lemma createChatSession_effect rt body context d :
  Effect (caller_id context) d (createChatSession rt body context d).
Proof.
  unfold createChatSession.
  match goal with
  | |- context [defineAction ?s ?h body context d] =>
      destruct (defineAction_cases s h body context d) as [(i & Hi & ->)|(Hi & ->)]
  end; [|apply effect_read, same_tables_refl].
  unfold requireUser, caller_id.
  destruct (locals_user context) as [u|]; [|apply effect_read, same_tables_refl].
  unfold bind, ret, select_AiCharacters, insert_CharacterChatSessions. cbn.
  destruct (filter _ _) as [|c cs] eqn:F; [apply effect_read, same_tables_touch|].
  destruct (negb _ && negb _ && negb _); cbn;
    [apply effect_read, same_tables_touch|].
  destruct (existsb _ _) eqn:E; [apply effect_read; repeat split|].
  apply head_of_filter in F as [Hin Hid]. apply eq_text_true in Hid.
  eapply effect_new_session with (c := c); try reflexivity; auto.
  cbn. apply (existsb_false_fresh _ _ _ E).
Qed.

Lemma updateChatSession_effect rt body context d :
  Effect (caller_id context) d (updateChatSession rt body context d).
Proof.
  unfold updateChatSession.
  match goal with
  | |- context [defineAction ?s ?h body context d] =>
      destruct (defineAction_cases s h body context d) as [(i & Hi & ->)|(Hi & ->)]
  end; [|apply effect_read, same_tables_refl].
  unfold requireUser, caller_id.
  destruct (locals_user context) as [u|]; [|apply effect_read, same_tables_refl].
  unfold bind, ret, select_CharacterChatSessions, update_CharacterChatSessions. cbn.
  destruct (filter _ _) as [|s ss] eqn:F; [apply effect_read, same_tables_touch|].
  destruct (String.eqb_spec (Session.userId s) (User.id u)) as [O|O]; cbn;
    [|apply effect_read, same_tables_touch].
  apply head_of_filter in F as [Hin Hid]. apply eq_text_true in Hid.
  eapply effect_update_sessions with (s := s); try reflexivity; auto.
Qed.

Lemma createChatMessage_effect rt body context d :
  Effect (caller_id context) d (createChatMessage rt body context d).
Proof.
  unfold createChatMessage.
  match goal with
  | |- context [defineAction ?s ?h body context d] =>
      destruct (defineAction_cases s h body context d) as [(i & Hi & ->)|(Hi & ->)]
  end; [|apply effect_read, same_tables_refl].
  unfold requireUser, caller_id.
  destruct (locals_user context) as [u|]; [|apply effect_read, same_tables_refl].
  unfold bind, ret, select_CharacterChatSessions, insert_CharacterChatMessages,
    update_CharacterChatSessions. cbn.
  destruct (filter _ _) as [|s ss] eqn:F; [apply effect_read, same_tables_touch|].
  destruct (String.eqb_spec (Session.userId s) (User.id u)) as [O|O]; cbn;
    [|apply effect_read, same_tables_touch].
  destruct (existsb _ _) eqn:E; cbn; [apply effect_read; repeat split|].
  apply head_of_filter in F as [Hin Hid]. apply eq_text_true in Hid.
  eapply effect_new_message with (s := s); try reflexivity; auto.
  cbn. apply (existsb_false_fresh _ _ _ E).
Qed.

Lemma listing_effect a rt body context d :
  is_listing a = true ->
  exists reads,
    same_tables d (snd (server a rt body context d)) /\
    trail (snd (server a rt body context d)) = trail d ++ reads /\
    forallb is_select reads = true.
Proof.
  intros L. destruct a; try discriminate; cbn [server].
  - unfold listCharacters.
    match goal with
    | |- context [defineAction ?s ?h body context d] =>
        destruct (defineAction_cases s h body context d) as [(i & Hi & ->)|(Hi & ->)]
    end.
    + exists [Select T_AiCharacters]. repeat split.
    + exists []. cbn. rewrite app_nil_r. repeat split.
  - unfold listMyChatSessions.
    match goal with
    | |- context [defineAction ?s ?h body context d] =>
        destruct (defineAction_cases s h body context d) as [(i & Hi & ->)|(Hi & ->)]
    end; [|exists []; cbn; rewrite app_nil_r; repeat split].
    unfold requireUser.
    destruct (locals_user context) as [u|];
      [|exists []; cbn; rewrite app_nil_r; repeat split].
    exists [Select T_CharacterChatSessions]. repeat split.
  - unfold listChatMessages.
    match goal with
    | |- context [defineAction ?s ?h body context d] =>
        destruct (defineAction_cases s h body context d) as [(i & Hi & ->)|(Hi & ->)]
    end; [|exists []; cbn; rewrite app_nil_r; repeat split].
    unfold requireUser.
    destruct (locals_user context) as [u|];
      [|exists []; cbn; rewrite app_nil_r; repeat split].
    unfold bind, ret, select_CharacterChatSessions, select_CharacterChatMessages. cbn.
    destruct (filter _ _) as [|s ss];
      [exists [Select T_CharacterChatSessions]; repeat split|].
    destruct (String.eqb _ _); cbn.
    + exists [Select T_CharacterChatSessions; Select T_CharacterChatMessages].
      cbn. rewrite <- app_assoc. repeat split.
    + exists [Select T_CharacterChatSessions]. repeat split.
Qed.

Lemma server_effect a rt body context d :
  Effect (caller_id context) d (server a rt body context d).
Proof.
  destruct a; cbn [server];
    auto using createCharacter_effect, updateCharacter_effect,
      createChatSession_effect, updateChatSession_effect, createChatMessage_effect.
  - destruct (listing_effect Action.listCharacters rt body context d eq_refl)
      as (reads & H & _).
    cbn [server] in H. destruct (listCharacters body context d). now apply effect_read.
  - destruct (listing_effect Action.listMyChatSessions rt body context d eq_refl)
      as (reads & H & _).
    cbn [server] in H. destruct (listMyChatSessions body context d).
    now apply effect_read.
  - destruct (listing_effect Action.listChatMessages rt body context d eq_refl)
      as (reads & H & _).
    cbn [server] in H. destruct (listChatMessages body context d).
    now apply effect_read.
Qed.

(** *** Calls that write nothing *)

(** X1. A call that throws, whatever the action and the reason, and a
    call without a caller leave all three tables exactly as they were:
    no handler writes before its last check, and no write is followed
    by a step that can fail. *)
Theorem failed_call_changes_nothing :
  forall a rt body context d,
    (exists e, fst (server a rt body context d) = Threw e) \/
    locals_user context = None ->
    same_tables d (snd (server a rt body context d)).
Proof.
  intros a rt body context d H.
  pose proof (server_effect a rt body context d) as E.
  destruct (server a rt body context d) as [o d']. cbn in *.
  assert (N : (exists e, o = Threw e) \/ caller_id context = None).
  { destruct H as [H|H]; [left; exact H|right].
    unfold caller_id. rewrite H. reflexivity. }
  clear H.
  inversion E; subst; try assumption;
    destruct N as [(e & N)|N]; congruence.
Qed.

(** X2. listCharacters, listMyChatSessions and listChatMessages never
    write: whatever the call, the tables are unchanged and every access
    they add to the trail is a select. *)
Theorem listings_only_read :
  forall a rt body context d,
    is_listing a = true ->
    exists reads,
      same_tables d (snd (server a rt body context d)) /\
      trail (snd (server a rt body context d)) = trail d ++ reads /\
      forallb is_select reads = true /\
      (length reads <= 2)%nat.
Proof.
  intros a rt body context d L.
  destruct (listing_effect a rt body context d L) as (reads & Hs & Ht & Hr).
  exists reads. repeat split; try apply Hs; auto.
  assert (B : (length (trail (snd (server a rt body context d)))
               <= length (trail d) + 2)%nat).
  { clear Ht Hr Hs reads.
    destruct a; try discriminate; cbn [server];
      unfold listCharacters, listMyChatSessions, listChatMessages;
      match goal with
      | |- context [defineAction ?s ?h body context d] =>
          destruct (defineAction_cases s h body context d)
            as [(i & Hi & ->)|(Hi & ->)]
      end; cbn; try lia;
      try (rewrite length_app; cbn; lia);
      unfold requireUser; destruct (locals_user context); cbn; try lia;
      try (rewrite length_app; cbn; lia).
    unfold bind, select_CharacterChatSessions, select_CharacterChatMessages, ret.
    cbn. destruct (filter _ _); cbn; [rewrite length_app; cbn; lia|].
    destruct (String.eqb _ _); cbn; rewrite ?length_app; cbn; lia. }
  rewrite Ht, length_app in B. lia.
Qed.

(** *** Rows are kept *)

Lemma character_fixed_same r : character_fixed r r.
Proof. repeat split. Qed.

Lemma session_fixed_same s : session_fixed s s.
Proof. repeat split. Qed.

Lemma character_fixed_chain a b c :
  character_fixed a b -> character_fixed b c -> character_fixed a c.
Proof.
  unfold character_fixed. intros (?&?&?&?) (?&?&?&?). repeat split; congruence.
Qed.

Lemma session_fixed_chain a b c :
  session_fixed a b -> session_fixed b c -> session_fixed a c.
Proof.
  unfold session_fixed. intros (?&?&?&?) (?&?&?&?). repeat split; congruence.
Qed.

Lemma character_fixed_update rt input (w : Where Character.t) r :
  character_fixed r
    (if w r then set_character (updateCharacter_data rt input) r else r).
Proof. destruct (w r); repeat split. Qed.

Lemma session_fixed_update rt input (w : Where Session.t) s :
  session_fixed s
    (if w s then set_session (updateChatSession_data rt input) s else s).
Proof. destruct (w s); repeat split. Qed.

Lemma session_fixed_touch now (w : Where Session.t) s :
  session_fixed s (if w s then set_session (touch_session_data now) s else s).
Proof. destruct (w s); repeat split. Qed.

(** Case analysis on an effect, with the same names in every case. *)
Ltac effect_cases E :=
  inversion E as
    [ o0 d0 Hst
    | uid c d0 Hw Ho Hsys Hfr Hc Hs Hm
    | uid rt0 input c d0 Hw Hin Hid Ho Hc Hs Hm
    | uid c s d0 Hw Ho Hin Hid Hfr Hc Hs Hm
    | uid rt0 input s d0 Hw Hin Hid Ho Hc Hs Hm
    | uid s m d0 Hw Hin Hid Ho Hfr Hc Hs Hm ];
  subst;
  try match goal with
      | H : same_tables _ _ |- _ => destruct H as (Hc & Hs & Hm)
      end.

(** One call: each table is the old one, row by row with its fixed
    columns, followed by at most one new row; old messages are the very
    same rows. *)
Lemma effect_keeps_rows who d o d' :
  Effect who d (o, d') ->
  (exists kept added,
     AiCharacters d' = kept ++ added /\
     Forall2 character_fixed (AiCharacters d) kept) /\
  (exists kept added,
     CharacterChatSessions d' = kept ++ added /\
     Forall2 session_fixed (CharacterChatSessions d) kept) /\
  (exists added,
     CharacterChatMessages d' = CharacterChatMessages d ++ added /\
     (length added <= 1)%nat).
Proof.
  intros E. effect_cases E; rewrite Hc, Hs, Hm; (split; [|split]);
    try solve [exists (AiCharacters d), []; rewrite app_nil_r;
               split; [reflexivity|apply Forall2_same, character_fixed_same]];
    try solve [exists (CharacterChatSessions d), []; rewrite app_nil_r;
               split; [reflexivity|apply Forall2_same, session_fixed_same]];
    try solve [exists []; rewrite app_nil_r; cbn; auto].
  - exists (AiCharacters d), [c].
    split; [reflexivity|apply Forall2_same, character_fixed_same].
  - eexists. exists []. rewrite app_nil_r. split; [reflexivity|].
    apply Forall2_map_right. intros r. apply character_fixed_update.
  - exists (CharacterChatSessions d), [s].
    split; [reflexivity|apply Forall2_same, session_fixed_same].
  - eexists. exists []. rewrite app_nil_r. split; [reflexivity|].
    apply Forall2_map_right. intros r. apply session_fixed_update.
  - eexists. exists []. rewrite app_nil_r. split; [reflexivity|].
    apply Forall2_map_right. intros r. apply session_fixed_touch.
  - exists [m]. cbn. auto.
Qed.

Lemma run_call_effect c d :
  exists o, Effect (caller_id (call_context c)) d (o, run_call c d).
Proof.
  unfold run_call.
  pose proof (server_effect (call_action c) (call_runtime c) (call_body c)
                (call_context c) d) as E.
  destruct (server _ _ _ _ d) as [o d']. exists o. exact E.
Qed.

Lemma Forall2_prefix_chain {A} (R : A -> A -> Prop) l kept added kept' :
  (forall a b c, R a b -> R b c -> R a c) ->
  Forall2 R l kept ->
  Forall2 R (kept ++ added) kept' ->
  exists k1 k2, kept' = k1 ++ k2 /\ Forall2 R l k1.
Proof.
  intros T H1 H2. apply Forall2_app_inv_l in H2 as (k1 & k2 & Hk1 & _ & ->).
  exists k1, k2. split; [reflexivity|].
  eapply Forall2_chain; eassumption.
Qed.

(** X3. The message log is append-only: after any sequence of calls of
    any actions, by anyone, the message table is the former table, row
    for row, followed by new rows, at most one per call. *)
Theorem messages_are_append_only :
  forall calls d,
    exists added,
      CharacterChatMessages (run_calls calls d)
      = CharacterChatMessages d ++ added /\
      (length added <= length calls)%nat.
Proof.
  intros calls. induction calls as [|c calls IH]; intros d; cbn.
  - exists []. rewrite app_nil_r. auto.
  - destruct (run_call_effect c d) as (o & E).
    apply effect_keeps_rows in E as (_ & _ & added1 & H1 & L1).
    destruct (IH (run_call c d)) as (added2 & H2 & L2).
    exists (added1 ++ added2). unfold run_calls in H2. rewrite H2, H1, <- app_assoc.
    split; [reflexivity|]. rewrite length_app. lia.
Qed.

(** X4. No sequence of calls deletes, reorders, renames or re-owns a
    stored character or session: afterwards each table starts with the
    former rows, in order, each with its id, owner and creation date
    (and for a character its system flag, for a session its character)
    unchanged. *)
Theorem stored_rows_keep_identity :
  forall calls d,
    (exists kept added,
       AiCharacters (run_calls calls d) = kept ++ added /\
       Forall2 character_fixed (AiCharacters d) kept) /\
    (exists kept added,
       CharacterChatSessions (run_calls calls d) = kept ++ added /\
       Forall2 session_fixed (CharacterChatSessions d) kept).
Proof.
  intros calls. induction calls as [|c calls IH]; intros d; cbn.
  - split.
    + exists (AiCharacters d), []. rewrite app_nil_r.
      split; [reflexivity|apply Forall2_same, character_fixed_same].
    + exists (CharacterChatSessions d), []. rewrite app_nil_r.
      split; [reflexivity|apply Forall2_same, session_fixed_same].
  - destruct (run_call_effect c d) as (o & E).
    apply effect_keeps_rows in E
      as ((kc & ac & Hc & Fc) & (ks & sa & Hs & Fs) & _).
    destruct (IH (run_call c d))
      as ((kc' & ac' & Hc' & Fc') & (ks' & sa' & Hs' & Fs')).
    unfold run_calls in Hc', Hs'. split.
    + rewrite Hc in Fc'.
      destruct (Forall2_prefix_chain _ _ _ _ _ character_fixed_chain Fc Fc')
        as (k1 & k2 & -> & F).
      exists k1, (k2 ++ ac'). rewrite Hc', <- app_assoc. auto.
    + rewrite Hs in Fs'.
      destruct (Forall2_prefix_chain _ _ _ _ _ session_fixed_chain Fs Fs')
        as (k1 & k2 & -> & F).
      exists k1, (k2 ++ sa'). rewrite Hs', <- app_assoc. auto.
Qed.

(** *** Invariants *)

Lemma NoDup_map_snoc {A} (col : A -> string) l x :
  NoDup (map col l) ->
  (forall r, In r l -> col r <> col x) ->
  NoDup (map col (l ++ [x])).
Proof.
  intros N F. rewrite map_app. apply NoDup_app; [exact N| |].
  - cbn. constructor; [intros []|constructor].
  - intros a Ha [<-|[]]. apply in_map_iff in Ha as (r & Hr & Hin).
    exact (F r Hin Hr).
Qed.

Lemma map_col_stable {A} (col : A -> string) (f : A -> A) l :
  (forall r, col (f r) = col r) ->
  map col (map f l) = map col l.
Proof. intros H. rewrite map_map. apply map_ext. exact H. Qed.

Lemma character_id_update rt input (w : Where Character.t) r :
  Character.id (if w r then set_character (updateCharacter_data rt input) r else r)
  = Character.id r.
Proof. destruct (w r); reflexivity. Qed.

Lemma session_id_update rt input (w : Where Session.t) s :
  Session.id (if w s then set_session (updateChatSession_data rt input) s else s)
  = Session.id s.
Proof. destruct (w s); reflexivity. Qed.

Lemma session_id_touch now (w : Where Session.t) s :
  Session.id (if w s then set_session (touch_session_data now) s else s)
  = Session.id s.
Proof. destruct (w s); reflexivity. Qed.

Lemma session_character_update rt input (w : Where Session.t) s :
  Session.characterId
    (if w s then set_session (updateChatSession_data rt input) s else s)
  = Session.characterId s.
Proof. destruct (w s); reflexivity. Qed.

Lemma session_character_touch now (w : Where Session.t) s :
  Session.characterId (if w s then set_session (touch_session_data now) s else s)
  = Session.characterId s.
Proof. destruct (w s); reflexivity. Qed.

Lemma effect_unique_ids who d o d' :
  Effect who d (o, d') -> unique_ids d -> unique_ids d'.
Proof.
  intros E (Nc & Ns & Nm). unfold unique_ids.
  effect_cases E; rewrite Hc, Hs, Hm; repeat split; auto.
  - apply NoDup_map_snoc; assumption.
  - rewrite map_col_stable; [assumption|]. intros r. apply character_id_update.
  - apply NoDup_map_snoc; assumption.
  - rewrite map_col_stable; [assumption|]. intros r. apply session_id_update.
  - rewrite map_col_stable; [assumption|]. intros r. apply session_id_touch.
  - apply NoDup_map_snoc; assumption.
Qed.

Lemma effect_references who d o d' :
  Effect who d (o, d') -> references_hold d -> references_hold d'.
Proof.
  intros E (Rs & Rm). unfold references_hold.
  effect_cases E; rewrite Hc, Hs, Hm.
  - auto.
  - split; [|exact Rm]. intros x Hx. destruct (Rs x Hx) as (y & Hy & Hxy).
    exists y. split; [apply in_or_app; left; exact Hy|exact Hxy].
  - split; [|exact Rm]. intros x Hx. destruct (Rs x Hx) as (y & Hy & Hxy).
    eexists. split; [apply in_map; exact Hy|].
    rewrite character_id_update. exact Hxy.
  - split.
    + intros x Hx. apply in_app_or in Hx as [Hx|[<-|[]]].
      * exact (Rs x Hx).
      * exists c. auto.
    + intros x Hx. destruct (Rm x Hx) as (y & Hy & Hxy).
      exists y. split; [apply in_or_app; left; exact Hy|exact Hxy].
  - split.
    + intros x Hx. apply in_map_iff in Hx as (x0 & <- & Hx0).
      rewrite session_character_update. exact (Rs x0 Hx0).
    + intros x Hx. destruct (Rm x Hx) as (y & Hy & Hxy).
      eexists. split; [apply in_map; exact Hy|].
      rewrite session_id_update. exact Hxy.
  - split.
    + intros x Hx. apply in_map_iff in Hx as (x0 & <- & Hx0).
      rewrite session_character_touch. exact (Rs x0 Hx0).
    + intros x Hx. apply in_app_or in Hx as [Hx|[<-|[]]].
      * destruct (Rm x Hx) as (y & Hy & Hxy).
        eexists. split; [apply in_map; exact Hy|].
        rewrite session_id_touch. exact Hxy.
      * eexists. split; [apply in_map; exact Hin|].
        rewrite session_id_touch. exact Hid.
Qed.

(** X5. Primary keys stay unique: if no two rows of a table share an
    id, then after any sequence of calls of any actions no two rows of
    a table share an id: inserts refuse a stored id and updates never
    write the id column. *)
Theorem primary_keys_stay_unique :
  forall calls d,
    unique_ids d -> unique_ids (run_calls calls d).
Proof.
  intros calls. induction calls as [|c calls IH]; intros d U; cbn; [exact U|].
  apply IH. destruct (run_call_effect c d) as (o & E).
  exact (effect_unique_ids _ _ _ _ E U).
Qed.

(** X6. References stay valid: if every session refers to a stored
    character and every message to a stored session, the same holds
    after any sequence of calls: a row is inserted only after the row
    it refers to was found, and no call removes or renames a row. *)
Theorem references_stay_valid :
  forall calls d,
    references_hold d -> references_hold (run_calls calls d).
Proof.
  intros calls. induction calls as [|c calls IH]; intros d R; cbn; [exact R|].
  apply IH. destruct (run_call_effect c d) as (o & E).
  exact (effect_references _ _ _ _ E R).
Qed.

(** *** Writes stay with the caller *)

Lemma Forall2_same_if {A} (P : A -> Prop) l :
  Forall2 (fun r r' => P r -> r' = r) l l.
Proof. apply Forall2_same. auto. Qed.

Lemma effect_own_rows who d o d' :
  Effect who d (o, d') ->
  (exists kept added,
     AiCharacters d' = kept ++ added /\
     Forall2 (fun r r' => not_owned_by who (Character.userId r) -> r' = r)
             (AiCharacters d) kept /\
     Forall (fun r => exists uid, who = Some uid /\
                                  Character.userId r = Some uid) added) /\
  (exists kept added,
     CharacterChatSessions d' = kept ++ added /\
     Forall2 (fun s s' => not_owned_by who (Some (Session.userId s)) -> s' = s)
             (CharacterChatSessions d) kept /\
     Forall (fun s => who = Some (Session.userId s)) added) /\
  (exists added,
     CharacterChatMessages d' = CharacterChatMessages d ++ added /\
     Forall (fun m => exists s, In s (CharacterChatSessions d) /\
                                Session.id s = Message.sessionId m /\
                                who = Some (Session.userId s)) added).
Proof.
  intros E.
  effect_cases E; rewrite Hc, Hs, Hm; (split; [|split]);
    try solve [exists (AiCharacters d), []; rewrite app_nil_r;
               split; [reflexivity|split; [apply Forall2_same_if|constructor]]];
    try solve [exists (CharacterChatSessions d), []; rewrite app_nil_r;
               split; [reflexivity|split; [apply Forall2_same_if|constructor]]];
    try solve [exists []; rewrite app_nil_r; split; [reflexivity|constructor]].
  - exists (AiCharacters d), [c].
    split; [reflexivity|split; [apply Forall2_same_if|]].
    constructor; [eauto|constructor].
  - eexists. exists []. rewrite app_nil_r.
    split; [reflexivity|split; [|constructor]].
    apply Forall2_map_right. intros r N.
    destruct (character_target _ _ r) eqn:T; [|reflexivity].
    apply character_target_true in T as [_ T]. elim (N uid eq_refl T).
  - exists (CharacterChatSessions d), [s].
    split; [reflexivity|split; [apply Forall2_same_if|]].
    constructor; [reflexivity|constructor].
  - eexists. exists []. rewrite app_nil_r.
    split; [reflexivity|split; [|constructor]].
    apply Forall2_map_right. intros r N.
    destruct (session_target _ _ r) eqn:T; [|reflexivity].
    apply session_target_true in T as [_ T]. elim (N _ eq_refl). congruence.
  - eexists. exists []. rewrite app_nil_r.
    split; [reflexivity|split; [|constructor]].
    apply Forall2_map_right. intros r N.
    destruct (session_target _ _ r) eqn:T; [|reflexivity].
    apply session_target_true in T as [_ T]. elim (N _ eq_refl). congruence.
  - exists [m]. split; [reflexivity|].
    constructor; [|constructor]. exists s. auto.
Qed.

(** X7. A call writes only what is the caller's. Whatever the action
    and the body: every stored character whose owner is not the caller,
    and every stored session of another user, is afterwards the very
    same row at the same place (all of them when there is no caller); a
    character or session that is added is owned by the caller; and a
    message that is added belongs to a session the caller owns. *)
Theorem calls_write_only_own_rows :
  forall a rt body context d,
    (exists kept added,
       AiCharacters (snd (server a rt body context d)) = kept ++ added /\
       Forall2 (fun r r' =>
                  not_owned_by (caller_id context) (Character.userId r) -> r' = r)
               (AiCharacters d) kept /\
       Forall (fun r => exists uid, caller_id context = Some uid /\
                                    Character.userId r = Some uid) added) /\
    (exists kept added,
       CharacterChatSessions (snd (server a rt body context d)) = kept ++ added /\
       Forall2 (fun s s' =>
                  not_owned_by (caller_id context) (Some (Session.userId s)) ->
                  s' = s)
               (CharacterChatSessions d) kept /\
       Forall (fun s => caller_id context = Some (Session.userId s)) added) /\
    (exists added,
       CharacterChatMessages (snd (server a rt body context d))
       = CharacterChatMessages d ++ added /\
       Forall (fun m => exists s, In s (CharacterChatSessions d) /\
                                  Session.id s = Message.sessionId m /\
                                  caller_id context = Some (Session.userId s))
              added).
Proof.
  intros a rt body context d.
  pose proof (server_effect a rt body context d) as E.
  destruct (server a rt body context d) as [o d'].
  exact (effect_own_rows _ _ _ _ E).
Qed.

(** *** What a call does not depend on *)

Lemma key_agrees {A} k (p : Schema A) o1 o2 :
  prop k o1 = prop k o2 -> key k p o1 = key k p o2.
Proof. unfold key. intros ->. reflexivity. Qed.

Lemma ap_agrees {A B} (pf : ObjectSchema (A -> B)) pa o1 o2 :
  pf o1 = pf o2 -> pa o1 = pa o2 -> (pf <*> pa) o1 = (pf <*> pa) o2.
Proof. unfold ap. intros -> ->. reflexivity. Qed.

Lemma defineAction_agrees {I} (input : ObjectSchema I) handler o1 o2 context :
  input o1 = input o2 ->
  defineAction input handler o1 context = defineAction input handler o2 context.
Proof. unfold defineAction. intros ->. reflexivity. Qed.

(** X8. An action reads the body only at the keys of its schema: two
    bodies that agree on those keys give the same outcome and the same
    database. In particular keys such as "id", "userId", "isSystem" or
    "createdAt" in the body of createCharacter or of an update change
    nothing. *)
Theorem only_schema_keys_matter :
  forall a rt body1 body2 context d,
    (forall k, In k (schema_keys a) -> prop k body1 = prop k body2) ->
    server a rt body1 context d = server a rt body2 context d.
Proof.
  intros a rt body1 body2 context d H.
  destruct a; cbn [server schema_keys] in *;
    unfold createCharacter, updateCharacter, listCharacters, createChatSession,
      updateChatSession, listMyChatSessions, createChatMessage, listChatMessages;
    (erewrite defineAction_agrees; [reflexivity|]);
    unfold createCharacter_input, updateCharacter_input, listCharacters_input,
      createChatSession_input, updateChatSession_input, listMyChatSessions_input,
      createChatMessage_input, listChatMessages_input;
    repeat (apply ap_agrees; [|apply key_agrees, H; cbn;
                               repeat first [left; reflexivity | right]]);
    reflexivity.
Qed.

Lemma filter_through {A} (w keep : A -> bool) l :
  (forall a, w a = true -> keep a = true) ->
  filter w (filter keep l) = filter w l.
Proof.
  intros H. induction l as [|a l IH]; cbn; [reflexivity|].
  destruct (keep a) eqn:K; cbn.
  - now rewrite IH.
  - destruct (w a) eqn:W; [|exact IH].
    rewrite (H a W) in K. discriminate.
Qed.

Lemma listCharacters_where_may_see input context r :
  listCharacters_where input (caller_id context) r = true ->
  may_see (caller_id context) r = true.
Proof.
  unfold listCharacters_where, may_see, baseVisibility, or_, eq_bool, eq_text_null,
    strict_eq.
  destruct (caller_id context) as [uid|];
    [destruct (ListCharacters.includePrivate input && truthy uid)|];
    destruct (Character.isPublic r), (Character.isSystem r); cbn;
    auto; discriminate.
Qed.

(** X9. listCharacters tells a caller nothing about rows that are
    neither public, nor system, nor the caller's own: two databases
    whose character tables agree once those rows are left out give the
    same outcome, items and total included, for every body and every
    caller. *)
Theorem hidden_characters_do_not_show :
  forall body context d1 d2,
    filter (may_see (caller_id context)) (AiCharacters d1)
    = filter (may_see (caller_id context)) (AiCharacters d2) ->
    fst (listCharacters body context d1) = fst (listCharacters body context d2).
Proof.
  intros body context d1 d2 H. unfold listCharacters, defineAction.
  destruct (listCharacters_input body) as [issues [i|]]; [|reflexivity].
  unfold bind, select_AiCharacters, ret. cbn.
  rewrite <- (filter_through _ (may_see (caller_id context)) (AiCharacters d1))
    by apply listCharacters_where_may_see.
  rewrite <- (filter_through _ (may_see (caller_id context)) (AiCharacters d2))
    by apply listCharacters_where_may_see.
  rewrite H. reflexivity.
Qed.

(** X10. The chat actions never consult the character table: for
    updateChatSession, listMyChatSessions, createChatMessage and
    listChatMessages, replacing the character table by any other one
    changes neither the outcome nor what the call does to sessions,
    messages and trail. A session therefore stays usable when its
    character is made private afterwards. *)
Theorem chat_actions_ignore_characters :
  forall a rt body context d cs,
    is_chat_action a = true ->
    server a rt body context (with_characters cs d)
    = (fst (server a rt body context d),
       with_characters cs (snd (server a rt body context d))).
Proof.
  intros a rt body context d cs Ha.
  destruct a; try discriminate; cbn [server];
    unfold updateChatSession, listMyChatSessions, createChatMessage,
      listChatMessages, defineAction;
    match goal with
    | |- context [?s body] =>
        match type of s with
        | ObjectSchema _ => destruct (s body) as [issues [i|]]; [|reflexivity]
        end
    end;
    unfold requireUser; destruct (locals_user context) as [u|]; try reflexivity;
    unfold bind, ret, select_CharacterChatSessions, select_CharacterChatMessages,
      insert_CharacterChatMessages, update_CharacterChatSessions; cbn;
    try reflexivity;
    (destruct (filter _ _) as [|s ss]; [reflexivity|]);
    (destruct (String.eqb _ _); cbn; [|reflexivity]);
    try reflexivity.
  destruct (existsb _ _); reflexivity.
Qed.

(** *** A session from its creation on *)

Lemma filter_none {A} (w : A -> bool) l :
  (forall a, In a l -> w a = false) -> filter w l = [].
Proof.
  intros H. induction l as [|a l IH]; cbn; [reflexivity|].
  rewrite (H a) by now left. apply IH. intros b Hb. apply H. now right.
Qed.

Lemma createChatSession_success rt body context u d input c rest :
  accepts createChatSession_input body input ->
  locals_user context = Some u ->
  filter (eq_text Character.id (CreateChatSession.characterId input))
         (AiCharacters d) = c :: rest ->
  Character.isPublic c = true \/ Character.isSystem c = true \/
  Character.userId c = Some (User.id u) ->
  fresh_session_id rt d ->
  let session :=
    Session.mk (randomUUID rt) (CreateChatSession.characterId input) (User.id u)
               (CreateChatSession.title input) None false false
               (now rt) (now rt) None in
  createChatSession rt body context d
  = (Returned (DataSession session),
     mkDb (AiCharacters d) (CharacterChatSessions d ++ [session])
          (CharacterChatMessages d)
          (trail d ++ [Select T_AiCharacters; Insert T_CharacterChatSessions])).
Proof.
  intros Hacc Hu Hf Hvis Hfresh session. unfold createChatSession.
  rewrite (defineAction_accepts _ _ _ _ _ Hacc).
  unfold requireUser. rewrite Hu.
  unfold bind at 1, ret at 1. unfold bind at 1, select_AiCharacters. rewrite Hf.
  assert (Hgate : negb (Character.isPublic c) && negb (Character.isSystem c)
                  && negb (strict_eq (Character.userId c) (User.id u)) = false).
  { destruct Hvis as [->|[->|Ho]]; cbn.
    - reflexivity.
    - now rewrite andb_false_r.
    - apply strict_eq_true in Ho. rewrite Ho. cbn. now rewrite andb_false_r. }
  rewrite Hgate. unfold bind, insert_CharacterChatSessions, ret.
  cbn [Session.id touch CharacterChatSessions AiCharacters CharacterChatMessages
       trail].
  rewrite (fresh_session_insert _ _ Hfresh). subst session.
  rewrite <- app_assoc. reflexivity.
Qed.

(** The new session is the only row under its id. *)
Lemma new_session_found rt d s :
  fresh_session_id rt d ->
  Session.id s = randomUUID rt ->
  filter (eq_text Session.id (randomUUID rt)) (CharacterChatSessions d ++ [s]) = [s].
Proof.
  intros F Hid. rewrite filter_app, filter_none.
  - cbn. unfold eq_text. rewrite Hid, String.eqb_refl. reflexivity.
  - intros r Hr. unfold eq_text. apply string_neq_eqb. exact (F r Hr).
Qed.



Lemma listMyChatSessions_run body context u d input :
  accepts listMyChatSessions_input body input ->
  locals_user context = Some u ->
  listMyChatSessions body context d
  = (Returned (DataSessions
                 (filter (listMyChatSessions_where input (User.id u))
                         (CharacterChatSessions d))
                 (length (filter (listMyChatSessions_where input (User.id u))
                                 (CharacterChatSessions d)))),
     touch (Select T_CharacterChatSessions) d).
Proof.
  intros Hacc Hu. unfold listMyChatSessions.
  rewrite (defineAction_accepts _ _ _ _ _ Hacc).
  unfold requireUser, bind. rewrite Hu. reflexivity.
Qed.

(** X12. A new session belongs to its creator alone. After a successful
    createChatSession by [u]: every listMyChatSessions of [u] returns
    the session; no listMyChatSessions of another user returns a row
    with its id; and updateChatSession, createChatMessage and
    listChatMessages on its id by another user are denied with
    FORBIDDEN. *)
Theorem new_session_belongs_to_its_creator :
  forall rt1 body context u d input c rest,
    locals_user context = Some u ->
    accepts createChatSession_input body input ->
    filter (eq_text Character.id (CreateChatSession.characterId input))
           (AiCharacters d) = c :: rest ->
    Character.isPublic c = true \/ Character.isSystem c = true \/
    Character.userId c = Some (User.id u) ->
    fresh_session_id rt1 d ->
    let d1 := snd (createChatSession rt1 body context d) in
    (forall bodyS inputS,
       accepts listMyChatSessions_input bodyS inputS ->
       exists items s,
         fst (listMyChatSessions bodyS context d1)
         = Returned (DataSessions items (length items)) /\
         In s items /\ Session.id s = randomUUID rt1 /\
         Session.userId s = User.id u) /\
    (forall context' v,
       locals_user context' = Some v ->
       User.id v <> User.id u ->
       (forall bodyS inputS items n,
          accepts listMyChatSessions_input bodyS inputS ->
          fst (listMyChatSessions bodyS context' d1)
          = Returned (DataSessions items n) ->
          forall s, In s items -> Session.id s <> randomUUID rt1) /\
       (forall a rt2 bodyX,
          a = Action.updateChatSession \/ a = Action.createChatMessage \/
          a = Action.listChatMessages ->
          prop (target_key a) bodyX = JString (randomUUID rt1) ->
          schema_accepts a bodyX = true ->
          fst (server a rt2 bodyX context' d1) = Threw (denial a))).
Proof.
  intros rt1 body context u d input c rest Hu Hacc Hf Hvis Hfresh d1.
  pose proof (createChatSession_success rt1 body context u d input c rest
                Hacc Hu Hf Hvis Hfresh) as Hrun.
  cbn zeta in Hrun.
  set (s := Session.mk (randomUUID rt1) (CreateChatSession.characterId input)
                       (User.id u) (CreateChatSession.title input) None false false
                       (now rt1) (now rt1) None) in *.
  assert (Hd1 : CharacterChatSessions d1 = CharacterChatSessions d ++ [s]).
  { subst d1. rewrite Hrun. reflexivity. }
  split.
  - intros bodyS inputS HaccS.
    rewrite (listMyChatSessions_run bodyS context u d1 inputS HaccS Hu).
    eexists. exists s. split; [reflexivity|]. split; [|split; reflexivity].
    apply filter_In. split.
    + rewrite Hd1. apply in_or_app. right. now left.
    + apply listMyChatSessions_where_true. split; [reflexivity|right; reflexivity].
  - intros context' v Hv Hneq. split.
    + intros bodyS inputS items n HaccS Hlist x Hx Hid.
      rewrite (listMyChatSessions_run bodyS context' v d1 inputS HaccS Hv) in Hlist.
      cbn in Hlist. injection Hlist as <- _.
      apply filter_In in Hx as [Hin Hw].
      apply listMyChatSessions_where_true in Hw as [Hown _].
      rewrite Hd1 in Hin. apply in_app_or in Hin as [Hin|[<-|[]]].
      * exact (Hfresh x Hin Hid).
      * apply Hneq. symmetry. exact Hown.
    + intros a rt2 bodyX Ha Hkey Hok.
      rewrite (owner_scoped_denied a rt2 bodyX context' v (randomUUID rt1) d1);
        [reflexivity| | exact Hv | exact Hkey | exact Hok |].
      * destruct Ha as [->|[->| ->]]; reflexivity.
      * right. exists (Some (User.id u)), [].
        split; [|intros [= E]; apply Hneq; symmetry; exact E].
        assert (T : target_owners a (randomUUID rt1) d1
                    = map (fun x => Some (Session.userId x))
                          (filter (eq_text Session.id (randomUUID rt1))
                                  (CharacterChatSessions d1)))
          by (destruct Ha as [->|[->| ->]]; reflexivity).
        rewrite T, Hd1, (new_session_found rt1 d s Hfresh eq_refl). reflexivity.
Qed.

(** *** What is created or changed, as the listings then show it *)

Lemma listCharacters_run body context d input :
  accepts listCharacters_input body input ->
  listCharacters body context d
  = (Returned (DataCharacters
                 (filter (listCharacters_where input (caller_id context))
                         (AiCharacters d))
                 (length (filter (listCharacters_where input (caller_id context))
                                 (AiCharacters d)))),
     touch (Select T_AiCharacters) d).
Proof.
  intros Hacc. unfold listCharacters.
  rewrite (defineAction_accepts _ _ _ _ _ Hacc). reflexivity.
Qed.

Lemma createCharacter_success rt body context u d input :
  accepts createCharacter_input body input ->
  locals_user context = Some u ->
  fresh_character_id rt d ->
  let character :=
    Character.mk (randomUUID rt) (Some (User.id u))
      (CreateCharacter.name input) (CreateCharacter.slug input)
      (CreateCharacter.shortDescription input)
      (CreateCharacter.fullDescription input)
      (CreateCharacter.systemPrompt input) (CreateCharacter.speakingStyle input)
      (CreateCharacter.domain input) (CreateCharacter.avatarUrl input)
      false (nullish (CreateCharacter.isPublic input) false) (now rt) (now rt) in
  createCharacter rt body context d
  = (Returned (DataCharacter character),
     mkDb (AiCharacters d ++ [character]) (CharacterChatSessions d)
          (CharacterChatMessages d) (trail d ++ [Insert T_AiCharacters])).
Proof.
  intros Hacc Hu Hfresh character. unfold createCharacter.
  rewrite (defineAction_accepts _ _ _ _ _ Hacc).
  unfold requireUser, bind. rewrite Hu. cbn.
  unfold insert_AiCharacters. cbn [Character.id].
  rewrite (fresh_character_insert _ _ Hfresh). reflexivity.
Qed.

Lemma caller_id_some context uid :
  caller_id context = Some uid <->
  exists u, locals_user context = Some u /\ User.id u = uid.
Proof.
  unfold caller_id. destruct (locals_user context) as [u|].
  - split; [intros [= <-]; eauto|intros (u' & [= <-] & <-); reflexivity].
  - split; [discriminate|intros (u' & H & _); discriminate].
Qed.

(** X13. Who is shown a character that was just created. After a
    successful createCharacter by a caller [u] whose identifier is not
    the empty string, a listCharacters call by anyone, whose body gives
    [includePrivate] as [q], returns the new character if and only if
    the body of the creation gave [isPublic: true], or [q] holds and the
    listing is made by [u]. *)
Theorem created_character_visibility :
  forall rt body context u d input,
    locals_user context = Some u ->
    User.id u <> "" ->
    accepts createCharacter_input body input ->
    fresh_character_id rt d ->
    exists c,
      fst (createCharacter rt body context d) = Returned (DataCharacter c) /\
      forall bodyL q context' items n,
        gives_flag (prop "includePrivate" bodyL) q ->
        fst (listCharacters bodyL context'
                            (snd (createCharacter rt body context d)))
        = Returned (DataCharacters items n) ->
        (In c items <->
         prop "isPublic" body = JBool true \/
         (q = true /\ caller_id context' = Some (User.id u))).
Proof.
  intros rt body context u d input Hu Hne Hacc Hfresh.
  pose proof (createCharacter_reads_isPublic body input Hacc) as Hpub.
  rewrite (createCharacter_success rt body context u d input Hacc Hu Hfresh).
  eexists. split; [reflexivity|].
  intros bodyL q context' items n Hq Hlist.
  pose proof (listCharacters_accepts_flag bodyL q Hq) as HaccL.
  rewrite (listCharacters_run bodyL context' _ _ HaccL) in Hlist.
  cbn in Hlist. injection Hlist as <- _.
  rewrite filter_In, listCharacters_where_true. unfold visible. cbn.
  split.
  - intros (_ & [Hp|[Hs|(Hi & v & Hv & _ & Ho)]]).
    + left. destruct (CreateCharacter.isPublic input) as [[|]|]; cbn in Hp, Hpub;
        congruence.
    + discriminate.
    + right. injection Ho as Ho. rewrite Ho.
      split; [exact Hi|]. apply caller_id_some. eauto.
  - intros H. split; [apply in_or_app; right; now left|].
    destruct H as [Hp|(Hi & Hc)].
    + left. rewrite (gives_bool_some _ _ _ Hpub Hp). reflexivity.
    + right. right. split; [exact Hi|].
      apply caller_id_some in Hc as (v & Hv & Hid).
      exists v. rewrite Hid. auto.
Qed.

(** X14. Archiving hides a session from the default listing, and
    unarchiving brings it back. After a successful updateChatSession by
    the owner whose body names the session [id] and gives
    [isArchived: b], a listMyChatSessions call by the owner whose body
    gives [includeArchived] as [q] (false when absent) returns a row
    with that id if and only if [b] is false or [q] is true. *)
Theorem archiving_controls_the_listing :
  forall rt body context u d input id s rest b,
    locals_user context = Some u ->
    accepts updateChatSession_input body input ->
    prop "id" body = JString id ->
    prop "isArchived" body = JBool b ->
    filter (eq_text Session.id id) (CharacterChatSessions d) = s :: rest ->
    Session.userId s = User.id u ->
    forall bodyL q,
      gives_flag (prop "includeArchived" bodyL) q ->
      exists items,
        fst (listMyChatSessions bodyL context
               (snd (updateChatSession rt body context d)))
        = Returned (DataSessions items (length items)) /\
        ((exists x, In x items /\ Session.id x = id) <-> (b = false \/ q = true)).
Proof.
  intros rt body context u d input id s rest b Hu Hacc Hid0 Harch Hf Hown
         bodyL q Hq.
  destruct (updateChatSession_reads_body body input Hacc)
    as (Tid & _ & _ & _ & Tarch).
  assert (Eid : UpdateChatSession.id input = id) by congruence.
  pose proof (gives_bool_some _ _ _ Tarch Harch) as Hb.
  pose proof (listMyChatSessions_accepts_flag bodyL q Hq) as HaccL.
  rewrite <- Eid in Hf |- *.
  rewrite (updateChatSession_run rt body context u d input Hacc Hu), Hf.
  rewrite Hown, String.eqb_refl. cbn [snd].
  rewrite (listMyChatSessions_run bodyL context u _ _ HaccL Hu).
  eexists. split; [reflexivity|]. cbn [CharacterChatSessions].
  set (f := fun r : Session.t =>
              if session_target (UpdateChatSession.id input) (User.id u) r
              then set_session (updateChatSession_data rt input) r else r).
  split.
  - intros (x & Hx & Hid). apply filter_In in Hx as [Hin Hw].
    apply listMyChatSessions_where_true in Hw as [Howner Hw].
    apply in_map_iff in Hin as (x0 & Hx0 & Hin0).
    assert (T : session_target (UpdateChatSession.id input) (User.id u) x0 = true).
    { apply session_target_true. subst x. unfold f in Hid, Howner.
      destruct (session_target _ _ x0) eqn:T.
      - apply session_target_true in T. exact T.
      - auto. }
    subst x. unfold f in Hw. rewrite T in Hw. cbn in Hw. rewrite Hb in Hw. cbn in Hw.
    destruct Hw as [Hw|Hw]; auto.
  - intros H. exists (f s).
    apply head_of_filter in Hf as [Hin Hid]. apply eq_text_true in Hid.
    assert (T : session_target (UpdateChatSession.id input) (User.id u) s = true)
      by (apply session_target_true; auto).
    split.
    + apply filter_In. split; [apply in_map; exact Hin|].
      apply listMyChatSessions_where_true. unfold f. rewrite T. cbn.
      rewrite Hb. cbn. split; [exact Hown|].
      destruct H as [->|H]; auto.
    + unfold f. rewrite T. exact Hid.
Qed.

(** X15. Publishing and unpublishing decide what others are shown.
    After a successful updateCharacter by the owner [u] whose body
    names the character [id] and gives [isPublic: b], the row is stored
    with [isPublic = b], and a listCharacters call by anyone but [u]
    returns a non-system row of [u] with that id exactly when the row
    is stored and [b] is true. *)
Theorem publishing_controls_the_listing :
  forall rt body context u d input id c rest b,
    locals_user context = Some u ->
    accepts updateCharacter_input body input ->
    prop "id" body = JString id ->
    prop "isPublic" body = JBool b ->
    filter (eq_text Character.id id) (AiCharacters d) = c :: rest ->
    Character.userId c = Some (User.id u) ->
    forall bodyL inputL context',
      accepts listCharacters_input bodyL inputL ->
      caller_id context' <> Some (User.id u) ->
      exists items,
        fst (listCharacters bodyL context'
               (snd (updateCharacter rt body context d)))
        = Returned (DataCharacters items (length items)) /\
        (exists x, In x (AiCharacters (snd (updateCharacter rt body context d))) /\
                   Character.id x = id /\
                   Character.userId x = Some (User.id u) /\
                   Character.isSystem x = Character.isSystem c /\
                   Character.isPublic x = b) /\
        forall x,
          Character.id x = id ->
          Character.userId x = Some (User.id u) ->
          Character.isSystem x = false ->
          (In x items <->
           In x (AiCharacters (snd (updateCharacter rt body context d))) /\
           b = true).
Proof.
  intros rt body context u d input id c rest b Hu Hacc Hid0 Hpub0 Hf Hown
         bodyL inputL context' HaccL Hother.
  destruct (updateCharacter_reads_body body input Hacc)
    as (Tid & _ & _ & _ & _ & _ & _ & _ & _ & Tpub).
  assert (Eid : UpdateCharacter.id input = id) by congruence.
  pose proof (gives_bool_some _ _ _ Tpub Hpub0) as Hb.
  rewrite <- Eid in Hf |- *.
  rewrite (updateCharacter_run rt body context u d input Hacc Hu), Hf.
  apply strict_eq_true in Hown. rewrite Hown. cbn [snd].
  rewrite (listCharacters_run bodyL context' _ inputL HaccL).
  eexists. split; [reflexivity|]. cbn [AiCharacters].
  set (f := fun r : Character.t =>
              if character_target (UpdateCharacter.id input) (User.id u) r
              then set_character (updateCharacter_data rt input) r else r).
  apply strict_eq_true in Hown.
  apply head_of_filter in Hf as [Hin Hid]. apply eq_text_true in Hid.
  assert (Tc : character_target (UpdateCharacter.id input) (User.id u) c = true)
    by (apply character_target_true; auto).
  split.
  - exists (f c). split; [apply in_map; exact Hin|].
    unfold f. rewrite Tc. cbn. rewrite Hb. auto.
  - intros x Hxid Hxown Hxsys.
    rewrite filter_In, listCharacters_where_true. unfold visible.
    split.
    + intros (Hxin & Hv). split; [exact Hxin|].
      assert (Hpub : Character.isPublic x = b).
      { apply in_map_iff in Hxin as (x0 & Hx0 & _). subst x. unfold f in *.
        destruct (character_target _ _ x0) eqn:T.
        - cbn. rewrite Hb. reflexivity.
        - assert (T' : character_target (UpdateCharacter.id input) (User.id u) x0
                       = true) by (apply character_target_true; auto).
          congruence. }
      destruct Hv as [Hp|[Hs|(_ & v & Hv & _ & Ho)]].
      * congruence.
      * congruence.
      * elim Hother. apply caller_id_some. exists v. split; [exact Hv|].
        congruence.
    + intros (Hxin & ->). split; [exact Hxin|]. left.
      apply in_map_iff in Hxin as (x0 & Hx0 & _). subst x. unfold f in *.
      destruct (character_target _ _ x0) eqn:T.
      * cbn. rewrite Hb. reflexivity.
      * assert (T' : character_target (UpdateCharacter.id input) (User.id u) x0
                     = true) by (apply character_target_true; auto).
        congruence.
Qed.

(** *** Repeating an update *)

Lemma set_character_twice rt1 rt2 input r :
  set_character (updateCharacter_data rt2 input)
                (set_character (updateCharacter_data rt1 input) r)
  = set_character (updateCharacter_data rt2 input) r.
Proof.
  unfold set_character, updateCharacter_data. cbn.
  destruct input as [i n s sd fd sp ss dm av ip]. cbn.
  destruct n, s, sd, fd, sp, ss, dm, av, ip; reflexivity.
Qed.

Lemma set_session_twice rt1 rt2 input r :
  set_session (updateChatSession_data rt2 input)
              (set_session (updateChatSession_data rt1 input) r)
  = set_session (updateChatSession_data rt2 input) r.
Proof.
  unfold set_session, updateChatSession_data. cbn.
  destruct input as [i t cs ip ia]. cbn.
  destruct t, cs, ip, ia; reflexivity.
Qed.

Lemma character_update_twice rt1 rt2 input uid l :
  map (fun r => if character_target (UpdateCharacter.id input) uid r
                then set_character (updateCharacter_data rt2 input) r else r)
      (map (fun r => if character_target (UpdateCharacter.id input) uid r
                     then set_character (updateCharacter_data rt1 input) r else r)
           l)
  = map (fun r => if character_target (UpdateCharacter.id input) uid r
                  then set_character (updateCharacter_data rt2 input) r else r)
        l.
Proof.
  rewrite map_map. apply map_ext. intros r.
  destruct (character_target _ _ r) eqn:T; [|rewrite T; reflexivity].
  assert (T' : character_target (UpdateCharacter.id input) uid
                 (set_character (updateCharacter_data rt1 input) r) = true)
    by exact T.
  rewrite T'. apply set_character_twice.
Qed.

Lemma session_update_twice rt1 rt2 input uid l :
  map (fun r => if session_target (UpdateChatSession.id input) uid r
                then set_session (updateChatSession_data rt2 input) r else r)
      (map (fun r => if session_target (UpdateChatSession.id input) uid r
                     then set_session (updateChatSession_data rt1 input) r else r)
           l)
  = map (fun r => if session_target (UpdateChatSession.id input) uid r
                  then set_session (updateChatSession_data rt2 input) r else r)
        l.
Proof.
  rewrite map_map. apply map_ext. intros r.
  destruct (session_target _ _ r) eqn:T; [|rewrite T; reflexivity].
  assert (T' : session_target (UpdateChatSession.id input) uid
                 (set_session (updateChatSession_data rt1 input) r) = true)
    by exact T.
  rewrite T'. apply set_session_twice.
Qed.

Lemma updateCharacter_again rt1 rt2 body context d :
  fst (updateCharacter rt2 body context (snd (updateCharacter rt1 body context d)))
  = fst (updateCharacter rt2 body context d) /\
  same_tables (snd (updateCharacter rt2 body context d))
    (snd (updateCharacter rt2 body context
            (snd (updateCharacter rt1 body context d)))).
Proof.
  destruct (snd (updateCharacter_input body)) as [input|] eqn:Hi.
  - destruct (locals_user context) as [u|] eqn:Hu.
    + rewrite (updateCharacter_run rt1 body context u d input Hi Hu).
      rewrite (updateCharacter_run rt2 body context u d input Hi Hu).
      destruct (filter _ (AiCharacters d)) as [|c cs] eqn:F.
      * cbn [snd]. rewrite (updateCharacter_run rt2 body context u _ input Hi Hu).
        cbn [touch AiCharacters]. rewrite F. repeat split.
      * destruct (strict_eq (Character.userId c) (User.id u)) eqn:O; cbn [snd].
        -- rewrite (updateCharacter_run rt2 body context u _ input Hi Hu).
           cbn [AiCharacters CharacterChatSessions CharacterChatMessages].
           rewrite filter_map_stable
             by (intros a; unfold eq_text; now rewrite character_id_update).
           rewrite F. cbn [map].
           assert (T : character_target (UpdateCharacter.id input) (User.id u) c
                       = true).
           { apply character_target_true. apply head_of_filter in F as [_ Hid].
             apply eq_text_true in Hid. apply strict_eq_true in O. auto. }
           rewrite T. cbn [set_character updateCharacter_data Character.userId
                           or_keep Character.set_userId].
           rewrite O, character_update_twice. repeat split.
        -- rewrite (updateCharacter_run rt2 body context u _ input Hi Hu).
           cbn [touch AiCharacters]. rewrite F, O. repeat split.
    + unfold updateCharacter. rewrite !(defineAction_accepts _ _ _ _ _ Hi).
      unfold requireUser, bind. rewrite Hu. cbn. repeat split.
  - unfold updateCharacter. rewrite !(defineAction_rejects _ _ _ _ _ Hi).
    cbn. repeat split.
Qed.

Lemma updateChatSession_again rt1 rt2 body context d :
  fst (updateChatSession rt2 body context
         (snd (updateChatSession rt1 body context d)))
  = fst (updateChatSession rt2 body context d) /\
  same_tables (snd (updateChatSession rt2 body context d))
    (snd (updateChatSession rt2 body context
            (snd (updateChatSession rt1 body context d)))).
Proof.
  destruct (snd (updateChatSession_input body)) as [input|] eqn:Hi.
  - destruct (locals_user context) as [u|] eqn:Hu.
    + rewrite (updateChatSession_run rt1 body context u d input Hi Hu).
      rewrite (updateChatSession_run rt2 body context u d input Hi Hu).
      destruct (filter _ (CharacterChatSessions d)) as [|s ss] eqn:F.
      * cbn [snd]. rewrite (updateChatSession_run rt2 body context u _ input Hi Hu).
        cbn [touch CharacterChatSessions]. rewrite F. repeat split.
      * destruct (String.eqb (Session.userId s) (User.id u)) eqn:O; cbn [snd].
        -- rewrite (updateChatSession_run rt2 body context u _ input Hi Hu).
           cbn [AiCharacters CharacterChatSessions CharacterChatMessages].
           rewrite filter_map_stable
             by (intros a; unfold eq_text; now rewrite session_id_update).
           rewrite F. cbn [map].
           assert (T : session_target (UpdateChatSession.id input) (User.id u) s
                       = true).
           { apply session_target_true. apply head_of_filter in F as [_ Hid].
             apply eq_text_true in Hid. apply String.eqb_eq in O. auto. }
           rewrite T. cbn [set_session updateChatSession_data Session.userId
                           or_keep Session.set_userId].
           rewrite O, session_update_twice. repeat split.
        -- rewrite (updateChatSession_run rt2 body context u _ input Hi Hu).
           cbn [touch CharacterChatSessions]. rewrite F, O. repeat split.
    + unfold updateChatSession. rewrite !(defineAction_accepts _ _ _ _ _ Hi).
      unfold requireUser, bind. rewrite Hu. cbn. repeat split.
  - unfold updateChatSession. rewrite !(defineAction_rejects _ _ _ _ _ Hi).
    cbn. repeat split.
Qed.

(** X16. Sending the same update again changes nothing but the date.
    For updateCharacter and updateChatSession, with any body and any
    caller: running the call at [rt1] and then again at [rt2] gives the
    same outcome and the same tables as running it once at [rt2]. *)
Theorem repeating_an_update :
  forall rt1 rt2 body context d,
    (fst (updateCharacter rt2 body context
            (snd (updateCharacter rt1 body context d)))
     = fst (updateCharacter rt2 body context d) /\
     same_tables (snd (updateCharacter rt2 body context d))
       (snd (updateCharacter rt2 body context
               (snd (updateCharacter rt1 body context d))))) /\
    (fst (updateChatSession rt2 body context
            (snd (updateChatSession rt1 body context d)))
     = fst (updateChatSession rt2 body context d) /\
     same_tables (snd (updateChatSession rt2 body context d))
       (snd (updateChatSession rt2 body context
               (snd (updateChatSession rt1 body context d))))).
Proof.
  intros rt1 rt2 body context d. split.
  - apply updateCharacter_again.
  - apply updateChatSession_again.
Qed.

(** *** What a new message leaves alone *)

Lemma session_content_touch now (w : Where Session.t) s :
  session_content_same s
    (if w s then set_session (touch_session_data now) s else s).
Proof. destruct (w s); repeat split. Qed.

(** X17. createChatMessage moves two dates of one session and nothing
    else. Whatever the call: the character table is unchanged; every
    session keeps its id, character, owner, title, context summary,
    flags and creation date; and a session whose id is not the body's
    [sessionId], or whose owner is not the caller, is the very same row
    afterwards. *)
Theorem createChatMessage_frame :
  forall rt body context d,
    AiCharacters (snd (createChatMessage rt body context d)) = AiCharacters d /\
    Forall2
      (fun s s' =>
         session_content_same s s' /\
         (prop "sessionId" body <> JString (Session.id s) \/
          caller_id context <> Some (Session.userId s) ->
          s' = s))
      (CharacterChatSessions d)
      (CharacterChatSessions (snd (createChatMessage rt body context d))).
Proof.
  intros rt body context d.
  assert (Same : forall d', AiCharacters d' = AiCharacters d ->
                            CharacterChatSessions d' = CharacterChatSessions d ->
            AiCharacters d' = AiCharacters d /\
            Forall2
              (fun s s' =>
                 session_content_same s s' /\
                 (prop "sessionId" body <> JString (Session.id s) \/
                  caller_id context <> Some (Session.userId s) ->
                  s' = s))
              (CharacterChatSessions d) (CharacterChatSessions d')).
  { intros d' Hc Hs. split; [exact Hc|]. rewrite Hs. apply Forall2_same.
    intros s. split; [repeat split|reflexivity]. }
  destruct (snd (createChatMessage_input body)) as [input|] eqn:Hi.
  - destruct (locals_user context) as [u|] eqn:Hu.
    + rewrite (createChatMessage_run rt body context u d input Hi Hu). cbn zeta.
      destruct (filter _ _) as [|s ss]; [apply Same; reflexivity|].
      destruct (String.eqb _ _); [|apply Same; reflexivity].
      unfold bind, insert_CharacterChatMessages, update_CharacterChatSessions, ret.
      cbn [Message.id touch CharacterChatMessages CharacterChatSessions AiCharacters
           trail].
      destruct (existsb _ _); [apply Same; reflexivity|].
      cbn [snd AiCharacters CharacterChatSessions]. split; [reflexivity|].
      apply Forall2_map_right. intros r.
      split; [apply session_content_touch|].
      intros N. destruct (session_target _ _ r) eqn:T; [|reflexivity].
      apply session_target_true in T as [Tid Town].
      assert (Hsid : prop "sessionId" body
                     = JString (CreateChatMessage.sessionId input)).
      { pose proof Hi as H. unfold createChatMessage_input in H. open_schema H.
        apply min1_string_inv in Hkey2 as [Hv _]. exact Hv. }
      destruct N as [N|N].
      * elim N. rewrite Hsid, Tid. reflexivity.
      * elim N. unfold caller_id. rewrite Hu, Town. reflexivity.
    + unfold createChatMessage. rewrite (defineAction_accepts _ _ _ _ _ Hi).
      unfold requireUser, bind. rewrite Hu. apply Same; reflexivity.
  - unfold createChatMessage. rewrite (defineAction_rejects _ _ _ _ _ Hi).
    apply Same; reflexivity.
Qed.

End Server.

(** ** The theorems at work on the scenario *)


(** Bob lists his sessions, first without asking for the archived ones,
    then asking for them. *)
Lemma listMyChatSessions_exact_witness :
  gives_flag (prop "includeArchived" []) false /\
  gives_flag (prop "includeArchived" [("includeArchived", JBool true)]) true /\
  locals_user (as_user bob) = Some bob /\
  (exists items,
     listMyChatSessions [] (as_user bob) scenario
     = (Returned (DataSessions items (length items)),
        touch (Select T_CharacterChatSessions) scenario) /\
     In open_talk items /\ ~ In old_talk items) /\
  (exists items,
     listMyChatSessions [("includeArchived", JBool true)] (as_user bob) scenario
     = (Returned (DataSessions items (length items)),
        touch (Select T_CharacterChatSessions) scenario) /\
     In open_talk items /\ In old_talk items).
Proof.
  assert (G0 : gives_flag (prop "includeArchived" []) false)
    by (right; split; reflexivity).
  assert (G1 : gives_flag (prop "includeArchived"
                                [("includeArchived", JBool true)]) true)
    by (left; reflexivity).
  split; [exact G0|]. split; [exact G1|]. split; [reflexivity|]. split.
  - destruct (listMyChatSessions_exact [] (as_user bob) bob scenario false
                G0 eq_refl)
      as (items & Hrun & _ & Hiff & _).
    exists items. split; [exact Hrun|]. split.
    + apply Hiff. split; [right; left; reflexivity|].
      split; [reflexivity|right; reflexivity].
    + intros Hin. apply Hiff in Hin as (_ & _ & [H|H]); discriminate H.
  - destruct (listMyChatSessions_exact [("includeArchived", JBool true)]
                (as_user bob) bob scenario true G1 eq_refl)
      as (items & Hrun & _ & Hiff & _).
    exists items. split; [exact Hrun|]. split.
    + apply Hiff. split; [right; left; reflexivity|].
      split; [reflexivity|left; reflexivity].
    + apply Hiff. split; [left; reflexivity|].
      split; [reflexivity|left; reflexivity].
Defined.

(** Alice creates a character and tries to make it a system one. *)
Lemma createCharacter_record_witness :
accepts (createCharacter_input plain_is_url)
        [("name", JString "Muse"); ("isSystem", JBool true);
         ("isPublic", JBool true)]
        (CreateCharacter.mk "Muse" None None None None None None None (Some true)) /\
locals_user (as_user alice) = Some alice /\
fresh_character_id (at_time 60 "c-muse") scenario /\
exists c,
  fst (createCharacter plain_is_url (at_time 60 "c-muse")
         [("name", JString "Muse"); ("isSystem", JBool true);
          ("isPublic", JBool true)]
         (as_user alice) scenario)
  = Returned (DataCharacter c) /\
  Character.isSystem c = false /\
  Character.userId c = Some "u-alice" /\
  Character.isPublic c = true /\
  Character.createdAt c = Character.updatedAt c.
Proof.
assert (F : fresh_character_id (at_time 60 "c-muse") scenario).
{ intros c [<-|[<-|[<-|[]]]]; discriminate. }
split; [reflexivity|]. split; [reflexivity|]. split; [exact F|].
destruct (createCharacter_record plain_is_url (at_time 60 "c-muse")
            [("name", JString "Muse"); ("isSystem", JBool true);
             ("isPublic", JBool true)]
            (as_user alice) alice scenario
            (CreateCharacter.mk "Muse" None None None None None None None
                                (Some true))
            eq_refl eq_refl F)
  as (c & Hrun & Hsys & Hown & Hpub & _ & Hdates & _).
exists c. rewrite Hrun. repeat split; auto.
Defined.

(** Bob asks for a session on a character that is not stored, on Alice's
    private character, and on her public one. *)
Lemma createChatSession_outcomes_witness :
  locals_user (as_user bob) = Some bob /\
  fresh_session_id (at_time 60 "s-new") scenario /\
  createChatSession (at_time 60 "s-new") [("characterId", JString "c-nobody")]
                    (as_user bob) scenario
  = (Threw (ActionError NOT_FOUND "Character not found."),
     touch (Select T_AiCharacters) scenario) /\
  createChatSession (at_time 60 "s-new") [("characterId", JString "c-diary")]
                    (as_user bob) scenario
  = (Threw (ActionError FORBIDDEN "You do not have access to this character."),
     touch (Select T_AiCharacters) scenario) /\
  createChatSession (at_time 60 "s-new")
                    [("characterId", JString "c-mentor"); ("title", JString "Chat")]
                    (as_user bob) scenario
  = (Returned (DataSession
                 (Session.mk "s-new" "c-mentor" "u-bob" (Some "Chat") None
                             false false 60 60 None)),
     mkDb [mentor; diary; guide]
          [old_talk; open_talk;
           Session.mk "s-new" "c-mentor" "u-bob" (Some "Chat") None false false
                      60 60 None]
          []
          [Select T_AiCharacters; Insert T_CharacterChatSessions]).
Proof.
  assert (F : fresh_session_id (at_time 60 "s-new") scenario).
  { intros s [<-|[<-|[]]]; discriminate. }
  split; [reflexivity|]. split; [exact F|]. split; [|split].
  - exact (proj1 (createChatSession_outcomes
                    (at_time 60 "s-new") [("characterId", JString "c-nobody")]
                    (as_user bob) bob scenario "c-nobody" None
                    eq_refl ltac:(discriminate) eq_refl eq_refl)
                 eq_refl).
  - exact (proj1 (proj2 (createChatSession_outcomes
                           (at_time 60 "s-new")
                           [("characterId", JString "c-diary")]
                           (as_user bob) bob scenario "c-diary" None
                           eq_refl ltac:(discriminate) eq_refl eq_refl))
                 diary [] eq_refl eq_refl eq_refl ltac:(discriminate)).
  - exact (proj2 (proj2 (proj2 (createChatSession_outcomes
                           (at_time 60 "s-new")
                           [("characterId", JString "c-mentor");
                            ("title", JString "Chat")]
                           (as_user bob) bob scenario "c-mentor" (Some "Chat")
                           eq_refl ltac:(discriminate) eq_refl eq_refl))
                        mentor [] eq_refl (or_introl eq_refl) F)).
Defined.

(** A message with empty content, sent to Bob's open session. *)
Lemma createChatMessage_rejects_before_store_witness :
prop "content" [("sessionId", JString "s-open"); ("senderRole", JString "user");
                ("content", JString "")]
= JString "" /\
exists issues,
  createChatMessage plain_stringify (at_time 60 "m-1")
    [("sessionId", JString "s-open"); ("senderRole", JString "user");
     ("content", JString "")]
    (as_user bob) scenario
  = (Threw (ActionInputError issues), scenario).
Proof.
split; [reflexivity|].
destruct (createChatMessage_rejects_before_store plain_stringify
            (at_time 60 "m-1")
            [("sessionId", JString "s-open"); ("senderRole", JString "user");
             ("content", JString "")]
            (as_user bob) scenario (or_introl eq_refl))
  as (issues & Hrun & _).
exists issues. exact Hrun.
Defined.

(** A well-formed createCharacter body sent without a caller. *)
Lemma calls_without_caller_witness :
locals_user anonymous = None /\
Action.createCharacter <> Action.listCharacters /\
schema_accepts plain_is_url Action.createCharacter [("name", JString "Muse")]
= true /\
server plain_stringify plain_is_url Action.createCharacter (at_time 60 "c-muse")
       [("name", JString "Muse")] anonymous scenario
= (Threw signed_out, scenario).
Proof.
split; [reflexivity|]. split; [discriminate|]. split; [reflexivity|].
destruct (proj1 (calls_without_caller plain_stringify plain_is_url
                   Action.createCharacter (at_time 60 "c-muse")
                   [("name", JString "Muse")] anonymous scenario eq_refl)
                ltac:(discriminate))
  as (Hdb & Hthrow & _).
apply injective_projections; [exact (Hthrow eq_refl)|exact Hdb].
Defined.

(** The call C9 is amended for: no caller and a body without a name.
  The action is not listCharacters and no identity is present, yet the
  error is the validation error, not UNAUTHORIZED. *)
Lemma unauthenticated_claim_fails :
Action.createCharacter <> Action.listCharacters /\
locals_user anonymous = None /\
fst (server plain_stringify plain_is_url Action.createCharacter
            (at_time 60 "c-muse") [("name", JString "")] anonymous scenario)
= Threw (ActionInputError ["name"]) /\
code_of (ActionInputError ["name"]) <> UNAUTHORIZED.
Proof.
split; [discriminate|]. split; [reflexivity|]. split; [reflexivity|discriminate].
Qed.

(** Bob tries to update Alice's private character, once where it is
  stored and once where nothing is stored. *)
Lemma owner_scoped_denials_indistinguishable_witness :
owner_scoped Action.updateCharacter = true /\
locals_user (as_user bob) = Some bob /\
prop (target_key Action.updateCharacter)
     [("id", JString "c-diary"); ("name", JString "Mine")]
= JString "c-diary" /\
target_absent Action.updateCharacter "c-diary" empty_db /\
target_foreign Action.updateCharacter "c-diary" "u-bob" scenario /\
fst (server plain_stringify plain_is_url Action.updateCharacter (at_time 60 "x")
            [("id", JString "c-diary"); ("name", JString "Mine")]
            (as_user bob) empty_db)
= fst (server plain_stringify plain_is_url Action.updateCharacter (at_time 70 "y")
              [("id", JString "c-diary"); ("name", JString "Mine")]
              (as_user bob) scenario).
Proof.
assert (Hf : target_foreign Action.updateCharacter "c-diary" "u-bob" scenario).
{ exists (Some "u-alice"), []. split; [reflexivity|discriminate]. }
split; [reflexivity|]. split; [reflexivity|]. split; [reflexivity|].
split; [reflexivity|]. split; [exact Hf|].
destruct (owner_scoped_denials_indistinguishable plain_stringify plain_is_url
            Action.updateCharacter (at_time 60 "x") (at_time 70 "y")
            [("id", JString "c-diary"); ("name", JString "Mine")]
            (as_user bob) bob "c-diary" empty_db scenario
            eq_refl eq_refl eq_refl eq_refl Hf)
  as (e & accesses & H1 & H2 & _).
rewrite H1, H2. reflexivity.
Defined.

(** Alice renames her public character and leaves the rest alone; Bob
    gives his open session a title and archives it. *)
Lemma updates_are_partial_witness :
  (locals_user (as_user alice) = Some alice /\
   accepts (updateCharacter_input plain_is_url)
           [("id", JString "c-mentor"); ("name", JString "Sage")]
           (UpdateCharacter.mk "c-mentor" (Some "Sage") None None None None None
                               None None None) /\
   body_of_character_update
     [("id", JString "c-mentor"); ("name", JString "Sage")]
     (UpdateCharacter.mk "c-mentor" (Some "Sage") None None None None None
                         None None None) /\
   exists rows,
     updateCharacter plain_is_url (at_time 60 "x")
       [("id", JString "c-mentor"); ("name", JString "Sage")]
       (as_user alice) scenario
     = (Returned (DataId "c-mentor"),
        mkDb rows [old_talk; open_talk] []
             [Select T_AiCharacters; Update T_AiCharacters]) /\
     Forall2
       (fun r r' =>
          (Character.id r = "c-mentor" /\ Character.userId r = Some "u-alice" ->
           character_partially_updated (at_time 60 "x")
             (UpdateCharacter.mk "c-mentor" (Some "Sage") None None None None
                                 None None None None) r r') /\
          (~ (Character.id r = "c-mentor" /\
              Character.userId r = Some "u-alice") ->
           r' = r))
       [mentor; diary; guide] rows) /\
  (locals_user (as_user bob) = Some bob /\
   accepts updateChatSession_input
           [("id", JString "s-open"); ("title", JString "Plans");
            ("isArchived", JBool true)]
           (UpdateChatSession.mk "s-open" (Some "Plans") None None (Some true)) /\
   body_of_session_update
     [("id", JString "s-open"); ("title", JString "Plans");
      ("isArchived", JBool true)]
     (UpdateChatSession.mk "s-open" (Some "Plans") None None (Some true)) /\
   exists rows,
     updateChatSession (at_time 70 "y")
       [("id", JString "s-open"); ("title", JString "Plans");
        ("isArchived", JBool true)]
       (as_user bob) scenario
     = (Returned (DataId "s-open"),
        mkDb [mentor; diary; guide] rows []
             [Select T_CharacterChatSessions; Update T_CharacterChatSessions]) /\
     Forall2
       (fun r r' =>
          (Session.id r = "s-open" /\ Session.userId r = "u-bob" ->
           session_partially_updated (at_time 70 "y")
             (UpdateChatSession.mk "s-open" (Some "Plans") None None (Some true))
             r r') /\
          (~ (Session.id r = "s-open" /\ Session.userId r = "u-bob") ->
           r' = r))
       [old_talk; open_talk] rows).
Proof.
  split.
  - split; [reflexivity|]. split; [reflexivity|].
    destruct (proj1 (updates_are_partial plain_is_url (at_time 60 "x")
                       [("id", JString "c-mentor"); ("name", JString "Sage")]
                       (as_user alice) scenario)
                    alice
                    (UpdateCharacter.mk "c-mentor" (Some "Sage") None None None
                                        None None None None None)
                    mentor [] eq_refl eq_refl eq_refl eq_refl)
      as (Hbody & rows & Hrun & Hrows & _).
    split; [exact Hbody|]. exists rows. split; [exact Hrun|exact Hrows].
  - split; [reflexivity|]. split; [reflexivity|].
    destruct (proj1 (proj2 (updates_are_partial plain_is_url (at_time 70 "y")
                              [("id", JString "s-open"); ("title", JString "Plans");
                               ("isArchived", JBool true)]
                              (as_user bob) scenario))
                    bob
                    (UpdateChatSession.mk "s-open" (Some "Plans") None None
                                          (Some true))
                    open_talk [] eq_refl eq_refl eq_refl eq_refl)
      as (Hbody & rows & Hrun & Hrows & _).
    split; [exact Hbody|]. exists rows. split; [exact Hrun|exact Hrows].
Defined.


(** Two updates in a row: Alice gives her character a slug-less new
  name, Bob retitles his archived session. *)
Lemma optional_fields_stay_set_witness :
Forall (fun c => is_update (call_action c) = true)
       [mkCall Action.updateCharacter (at_time 60 "x")
               [("id", JString "c-mentor"); ("name", JString "Sage")]
               (as_user alice);
        mkCall Action.updateChatSession (at_time 70 "y")
               [("id", JString "s-old"); ("isArchived", JBool false)]
               (as_user bob)] /\
Forall2 character_keeps (AiCharacters scenario)
        (AiCharacters
           (run_calls plain_stringify plain_is_url
              [mkCall Action.updateCharacter (at_time 60 "x")
                      [("id", JString "c-mentor"); ("name", JString "Sage")]
                      (as_user alice);
               mkCall Action.updateChatSession (at_time 70 "y")
                      [("id", JString "s-old"); ("isArchived", JBool false)]
                      (as_user bob)]
              scenario)).
Proof.
assert (U : Forall (fun c => is_update (call_action c) = true)
              [mkCall Action.updateCharacter (at_time 60 "x")
                      [("id", JString "c-mentor"); ("name", JString "Sage")]
                      (as_user alice);
               mkCall Action.updateChatSession (at_time 70 "y")
                      [("id", JString "s-old"); ("isArchived", JBool false)]
                      (as_user bob)]).
{ repeat constructor. }
split; [exact U|].
exact (proj1 (optional_fields_stay_set plain_stringify plain_is_url _ scenario U)).
Defined.

(** ** The further properties at work on the scenario *)

(** Bob's attempt on Alice's private character throws and leaves the
    tables alone. *)
Lemma failed_call_changes_nothing_witness :
  fst (server plain_stringify plain_is_url Action.updateCharacter (at_time 60 "x")
              [("id", JString "c-diary")] (as_user bob) scenario)
  = Threw (denial Action.updateCharacter) /\
  same_tables scenario
    (snd (server plain_stringify plain_is_url Action.updateCharacter
                 (at_time 60 "x") [("id", JString "c-diary")] (as_user bob)
                 scenario)).
Proof.
  split; [reflexivity|].
  apply (failed_call_changes_nothing plain_stringify plain_is_url).
  left. exists (denial Action.updateCharacter). reflexivity.
Defined.

(** Bob reads the history of his open session. *)
Lemma listings_only_read_witness :
  is_listing Action.listChatMessages = true /\
  exists reads,
    same_tables scenario
      (snd (server plain_stringify plain_is_url Action.listChatMessages
                   (at_time 60 "x") [("sessionId", JString "s-open")]
                   (as_user bob) scenario)) /\
    trail (snd (server plain_stringify plain_is_url Action.listChatMessages
                       (at_time 60 "x") [("sessionId", JString "s-open")]
                       (as_user bob) scenario))
    = trail scenario ++ reads /\
    forallb is_select reads = true /\
    (length reads <= 2)%nat.
Proof.
  split; [reflexivity|].
  apply (listings_only_read plain_stringify plain_is_url). reflexivity.
Defined.

Lemma scenario_unique_ids : unique_ids scenario.
Proof.
  repeat split; cbn; repeat constructor; cbn;
    intros H; repeat (destruct H as [H|H]; [discriminate H|]); exact H.
Qed.

Lemma scenario_references_hold : references_hold scenario.
Proof.
  split.
  - intros s [<-|[<-|[]]]; exists mentor; split; cbn; auto.
  - intros m [].
Qed.

(** Alice tries to create a character under a stored id, then Bob opens
    a session. *)
Lemma primary_keys_stay_unique_witness :
  unique_ids scenario /\
  unique_ids
    (run_calls plain_stringify plain_is_url
       [mkCall Action.createCharacter (at_time 60 "c-mentor")
               [("name", JString "Twin")] (as_user alice);
        mkCall Action.createChatSession (at_time 61 "s-new")
               [("characterId", JString "c-guide")] (as_user bob)]
       scenario).
Proof.
  split; [exact scenario_unique_ids|].
  apply primary_keys_stay_unique. exact scenario_unique_ids.
Defined.

Lemma references_stay_valid_witness :
  references_hold scenario /\
  references_hold
    (run_calls plain_stringify plain_is_url
       [mkCall Action.createChatSession (at_time 61 "s-new")
               [("characterId", JString "c-guide")] (as_user bob);
        mkCall Action.createChatMessage (at_time 62 "m-1")
               [("sessionId", JString "s-new"); ("senderRole", JString "user");
                ("content", JString "Hi")] (as_user bob)]
       scenario).
Proof.
  split; [exact scenario_references_hold|].
  apply references_stay_valid. exact scenario_references_hold.
Defined.

(** Bob archives nothing of Alice's: his update leaves the characters
    as they are. *)
Lemma calls_write_only_own_rows_witness :
  exists kept added,
    AiCharacters
      (snd (server plain_stringify plain_is_url Action.updateCharacter
                   (at_time 60 "x")
                   [("id", JString "c-mentor"); ("name", JString "Mine")]
                   (as_user bob) scenario))
    = kept ++ added /\
    Forall2 (fun r r' =>
               not_owned_by (caller_id (as_user bob)) (Character.userId r) ->
               r' = r)
            (AiCharacters scenario) kept /\
    Forall (fun r => exists uid, caller_id (as_user bob) = Some uid /\
                                 Character.userId r = Some uid) added.
Proof.
  exact (proj1 (calls_write_only_own_rows plain_stringify plain_is_url
                  Action.updateCharacter (at_time 60 "x")
                  [("id", JString "c-mentor"); ("name", JString "Mine")]
                  (as_user bob) scenario)).
Defined.

(** A body that also carries "isSystem" and "userId". *)
Lemma only_schema_keys_matter_witness :
  (forall k, In k (schema_keys Action.createCharacter) ->
             prop k [("isSystem", JBool true); ("userId", JString "u-bob");
                     ("name", JString "Muse")]
             = prop k [("name", JString "Muse")]) /\
  server plain_stringify plain_is_url Action.createCharacter (at_time 60 "c-muse")
         [("isSystem", JBool true); ("userId", JString "u-bob");
          ("name", JString "Muse")]
         (as_user alice) scenario
  = server plain_stringify plain_is_url Action.createCharacter (at_time 60 "c-muse")
           [("name", JString "Muse")] (as_user alice) scenario.
Proof.
  assert (H : forall k, In k (schema_keys Action.createCharacter) ->
                        prop k [("isSystem", JBool true); ("userId", JString "u-bob");
                                ("name", JString "Muse")]
                        = prop k [("name", JString "Muse")]).
  { intros k H. cbn in H.
    repeat (destruct H as [<-|H]; [reflexivity|]). destruct H. }
  split; [exact H|].
  apply (only_schema_keys_matter plain_stringify plain_is_url). exact H.
Defined.

(** With or without Alice's private character, Bob is shown the same. *)
Lemma hidden_characters_do_not_show_witness :
  filter (may_see (caller_id (as_user bob))) (AiCharacters scenario)
  = filter (may_see (caller_id (as_user bob)))
           (AiCharacters (mkDb [mentor; guide] [] [] [])) /\
  fst (listCharacters [("includePrivate", JBool true)] (as_user bob) scenario)
  = fst (listCharacters [("includePrivate", JBool true)] (as_user bob)
                        (mkDb [mentor; guide] [] [] [])).
Proof.
  split; [reflexivity|].
  apply hidden_characters_do_not_show. reflexivity.
Defined.

(** Bob posts to his open session although no character is stored any
    more. *)
Lemma chat_actions_ignore_characters_witness :
  is_chat_action Action.createChatMessage = true /\
  fst (server plain_stringify plain_is_url Action.createChatMessage
              (at_time 60 "m-1")
              [("sessionId", JString "s-open"); ("senderRole", JString "user");
               ("content", JString "Hi")]
              (as_user bob) (with_characters [] scenario))
  = fst (server plain_stringify plain_is_url Action.createChatMessage
                (at_time 60 "m-1")
                [("sessionId", JString "s-open"); ("senderRole", JString "user");
                 ("content", JString "Hi")]
                (as_user bob) scenario).
Proof.
  split; [reflexivity|].
  rewrite (chat_actions_ignore_characters plain_stringify plain_is_url
             Action.createChatMessage (at_time 60 "m-1")
             [("sessionId", JString "s-open"); ("senderRole", JString "user");
              ("content", JString "Hi")]
             (as_user bob) scenario [] eq_refl).
  reflexivity.
Defined.

Lemma scenario_fresh_session : fresh_session_id (at_time 60 "s-new") scenario.
Proof. intros s [<-|[<-|[]]]; discriminate. Qed.


Lemma scenario_fresh_character : fresh_character_id (at_time 60 "c-muse") scenario.
Proof. intros c [<-|[<-|[<-|[]]]]; discriminate. Qed.


(** Alice is turned away from the session Bob has just opened. *)
Lemma new_session_belongs_to_its_creator_witness :
  locals_user (as_user alice) = Some alice /\
  User.id alice <> User.id bob /\
  fst (server plain_stringify plain_is_url Action.listChatMessages (at_time 61 "x")
              [("sessionId", JString "s-new")] (as_user alice)
              (snd (createChatSession (at_time 60 "s-new")
                      [("characterId", JString "c-mentor")] (as_user bob)
                      scenario)))
  = Threw (denial Action.listChatMessages).
Proof.
  split; [reflexivity|]. split; [discriminate|].
  exact (proj2
           (proj2 (new_session_belongs_to_its_creator plain_stringify plain_is_url
                     (at_time 60 "s-new") [("characterId", JString "c-mentor")]
                     (as_user bob) bob scenario
                     (CreateChatSession.mk "c-mentor" None) mentor []
                     eq_refl eq_refl eq_refl (or_introl eq_refl)
                     scenario_fresh_session)
                  (as_user alice) alice eq_refl
                  ltac:(discriminate))
           Action.listChatMessages (at_time 61 "x")
           [("sessionId", JString "s-new")]
           (or_intror (or_intror eq_refl)) eq_refl eq_refl).
Defined.

(** Alice creates a private character: her own listing that asks for
    private rows holds it, Bob's does not, whatever he asks for. *)
Lemma created_character_visibility_witness :
  User.id alice <> "" /\
  exists c,
    fst (createCharacter plain_is_url (at_time 60 "c-muse")
           [("name", JString "Muse")] (as_user alice) scenario)
    = Returned (DataCharacter c) /\
    (forall items n,
       fst (listCharacters [("includePrivate", JBool true)] (as_user alice)
              (snd (createCharacter plain_is_url (at_time 60 "c-muse")
                      [("name", JString "Muse")] (as_user alice) scenario)))
       = Returned (DataCharacters items n) ->
       In c items) /\
    (forall items n,
       fst (listCharacters [("includePrivate", JBool true)] (as_user bob)
              (snd (createCharacter plain_is_url (at_time 60 "c-muse")
                      [("name", JString "Muse")] (as_user alice) scenario)))
       = Returned (DataCharacters items n) ->
       ~ In c items).
Proof.
  split; [discriminate|].
  destruct (created_character_visibility plain_is_url (at_time 60 "c-muse")
              [("name", JString "Muse")] (as_user alice) alice scenario
              (CreateCharacter.mk "Muse" None None None None None None None None)
              eq_refl ltac:(discriminate) eq_refl scenario_fresh_character)
    as (c & Hrun & Hshown).
  exists c. split; [exact Hrun|]. split.
  - intros items n Hlist.
    apply (Hshown [("includePrivate", JBool true)] true (as_user alice) items n
                  (or_introl eq_refl) Hlist).
    right. split; reflexivity.
  - intros items n Hlist Hin.
    destruct (proj1 (Hshown [("includePrivate", JBool true)] true (as_user bob)
                            items n (or_introl eq_refl) Hlist) Hin)
      as [H|(_ & H)]; discriminate H.
Defined.

(** Bob archives his open session: his default listing drops it, his
    listing with archived sessions keeps it. *)
Lemma archiving_controls_the_listing_witness :
  (exists items,
     fst (listMyChatSessions [] (as_user bob)
            (snd (updateChatSession (at_time 60 "x")
                    [("id", JString "s-open"); ("isArchived", JBool true)]
                    (as_user bob) scenario)))
     = Returned (DataSessions items (length items)) /\
     ~ (exists x, In x items /\ Session.id x = "s-open")) /\
  (exists items,
     fst (listMyChatSessions [("includeArchived", JBool true)] (as_user bob)
            (snd (updateChatSession (at_time 60 "x")
                    [("id", JString "s-open"); ("isArchived", JBool true)]
                    (as_user bob) scenario)))
     = Returned (DataSessions items (length items)) /\
     exists x, In x items /\ Session.id x = "s-open").
Proof.
  split.
  - destruct (archiving_controls_the_listing (at_time 60 "x")
                [("id", JString "s-open"); ("isArchived", JBool true)]
                (as_user bob) bob scenario
                (UpdateChatSession.mk "s-open" None None None (Some true))
                "s-open" open_talk [] true
                eq_refl eq_refl eq_refl eq_refl eq_refl eq_refl
                [] false (or_intror (conj eq_refl eq_refl)))
      as (items & Hrun & Hiff).
    exists items. split; [exact Hrun|].
    intros H. destruct (proj1 Hiff H) as [E|E]; discriminate E.
  - destruct (archiving_controls_the_listing (at_time 60 "x")
                [("id", JString "s-open"); ("isArchived", JBool true)]
                (as_user bob) bob scenario
                (UpdateChatSession.mk "s-open" None None None (Some true))
                "s-open" open_talk [] true
                eq_refl eq_refl eq_refl eq_refl eq_refl eq_refl
                [("includeArchived", JBool true)] true (or_introl eq_refl))
      as (items & Hrun & Hiff).
    exists items. split; [exact Hrun|].
    apply Hiff. right. reflexivity.
Defined.

(** Alice unpublishes her public character: an anonymous listing no
    longer holds a row of hers under that id. She publishes her private
    one: the anonymous listing now holds it. *)
Lemma publishing_controls_the_listing_witness :
  (exists items,
     fst (listCharacters [] anonymous
            (snd (updateCharacter plain_is_url (at_time 60 "x")
                    [("id", JString "c-mentor"); ("isPublic", JBool false)]
                    (as_user alice) scenario)))
     = Returned (DataCharacters items (length items)) /\
     forall x,
       Character.id x = "c-mentor" ->
       Character.userId x = Some "u-alice" ->
       Character.isSystem x = false ->
       ~ In x items) /\
  (exists items x,
     fst (listCharacters [] anonymous
            (snd (updateCharacter plain_is_url (at_time 60 "x")
                    [("id", JString "c-diary"); ("isPublic", JBool true)]
                    (as_user alice) scenario)))
     = Returned (DataCharacters items (length items)) /\
     In x items /\ Character.id x = "c-diary" /\ Character.isPublic x = true).
Proof.
  split.
  - destruct (publishing_controls_the_listing plain_is_url (at_time 60 "x")
                [("id", JString "c-mentor"); ("isPublic", JBool false)]
                (as_user alice) alice scenario
                (UpdateCharacter.mk "c-mentor" None None None None None None None
                                    None (Some false))
                "c-mentor" mentor [] false
                eq_refl eq_refl eq_refl eq_refl eq_refl eq_refl
                [] (ListCharacters.mk false) anonymous eq_refl
                ltac:(discriminate))
      as (items & Hrun & _ & Hiff).
    exists items. split; [exact Hrun|].
    intros x Hid Hown Hsys Hin.
    destruct (proj1 (Hiff x Hid Hown Hsys) Hin) as [_ E]. discriminate E.
  - destruct (publishing_controls_the_listing plain_is_url (at_time 60 "x")
                [("id", JString "c-diary"); ("isPublic", JBool true)]
                (as_user alice) alice scenario
                (UpdateCharacter.mk "c-diary" None None None None None None None
                                    None (Some true))
                "c-diary" diary [] true
                eq_refl eq_refl eq_refl eq_refl eq_refl eq_refl
                [] (ListCharacters.mk false) anonymous eq_refl
                ltac:(discriminate))
      as (items & Hrun & (x & Hin & Hid & Hown & Hsys & Hpub) & Hiff).
    exists items, x. split; [exact Hrun|].
    split; [|split; [exact Hid|exact Hpub]].
    apply (Hiff x Hid Hown Hsys). split; [exact Hin|reflexivity].
Defined.

(** Bob posts to his open session: his archived one is the same row. *)
Lemma createChatMessage_frame_witness :
  Forall2
    (fun s s' =>
       session_content_same s s' /\
       (prop "sessionId"
             [("sessionId", JString "s-open"); ("senderRole", JString "user");
              ("content", JString "Hi")]
        <> JString (Session.id s) \/
        caller_id (as_user bob) <> Some (Session.userId s) ->
        s' = s))
    (CharacterChatSessions scenario)
    (CharacterChatSessions
       (snd (createChatMessage plain_stringify (at_time 61 "m-1")
               [("sessionId", JString "s-open"); ("senderRole", JString "user");
                ("content", JString "Hi")]
               (as_user bob) scenario))).
Proof.
  exact (proj2 (createChatMessage_frame plain_stringify (at_time 61 "m-1")
                  [("sessionId", JString "s-open"); ("senderRole", JString "user");
                   ("content", JString "Hi")]
                  (as_user bob) scenario)).
Defined.
